(** * LocalBites: the search orchestrator of [App.tsx]

    A shallow embedding of the [App] component: its eight state cells, the
    language effect, the two search handlers with the callbacks they leave
    behind, and the conditions under which each block of the view is
    rendered.  The handlers are written in a small state-and-exception
    monad so that they read in the order of the source; the asynchronous
    calls they start are kept in the world as pending entries that a later
    event completes. *)

From Stdlib Require Import ZArith NArith List String Ascii Bool Lia PrimFloat.
From stdpp Require Import base option list gmap.

Local Open Scope Z_scope.

(** ** JavaScript strings

    A string is its sequence of UTF-16 code units.  [js] reads an ASCII
    literal. *)

Abbreviation jsstring := (list N) (only parsing).

Definition js (s : string) : jsstring :=
  map N_of_ascii (list_ascii_of_string s).

(** White space and line terminators of ECMAScript (all in the basic plane):
    the characters [String.prototype.trim] removes. *)
Definition isWhiteSpace (c : N) : bool :=
  ((9 <=? c) && (c <=? 13) ||
   (c =? 32) || (c =? 160) || (c =? 5760) ||
   ((8192 <=? c) && (c <=? 8202)) ||
   (c =? 8232) || (c =? 8233) || (c =? 8239) || (c =? 8287) ||
   (c =? 12288) || (c =? 65279))%N.

Fixpoint trimStart (s : jsstring) : jsstring :=
  match s with
  | c :: s' => if isWhiteSpace c then trimStart s' else s
  | [] => []
  end.

Definition trimEnd (s : jsstring) : jsstring := rev (trimStart (rev s)).

Definition trim (s : jsstring) : jsstring := trimEnd (trimStart s).

(** Truthiness of a string, and of a [string | null]. *)
Definition truthy (s : jsstring) : bool :=
  match s with [] => false | _ :: _ => true end.

Definition truthy_opt (o : option jsstring) : bool :=
  match o with Some s => truthy s | None => false end.

(** ** types.ts *)

Record Restaurant := {
  name : jsstring;
  cuisine : jsstring;
  description : jsstring
}.

Record Coordinates := {
  latitude : float;
  longitude : float
}.

(** The record of display strings, with the fields [App.tsx] reads. *)
Record UIText := {
  title : jsstring;
  subtitle : jsstring;
  findButton : jsstring;
  loadingButton : jsstring;
  loaderMessage : jsstring;
  welcomeMessage : jsstring;
  searchButton : jsstring;
  manualLocationPrompt : jsstring;
  manualLocationPlaceholder : jsstring;
  manualLocationError : jsstring;
  locationNotSupported : jsstring;
  locationPermissionDenied : jsstring;
  locationUnavailable : jsstring;
  locationTimeout : jsstring;
  locationError : jsstring;
  fetchError : jsstring
}.

(** ** The component's state: one field per [useState] cell *)

Record AppState := {
  language : jsstring;
  restaurants : list Restaurant;
  loading : bool;
  error : option jsstring;
  userLocation : option Coordinates;
  uiText : UIText;
  manualLocation : jsstring;
  showManualInput : bool
}.

(** A thrown value; the handlers only log it. *)
Inductive JSError := ProviderError (message : jsstring).

(** An asynchronous call as the platform or the provider sees it. *)
Inductive Request :=
| getCurrentPosition
| fetchRestaurants (lat lon : float) (lang : jsstring)
| fetchRestaurantsByQuery (query lang : jsstring).

(** A call in flight, with what its callbacks have closed over. *)
Record Pending := {
  request : Request;
  closed_language : jsstring;
  closed_uiText : UIText
}.

(** The world a handler runs in: the state cells (with the updates queued
    so far applied), [document.documentElement.dir], what went to
    [console.error], the calls in flight, and a log of every call started
    together with the state cells at that moment. *)
Record World := {
  state : AppState;
  dir : jsstring;
  console : list JSError;
  inflight : list Pending;
  started : list (Request * AppState)
}.

(** ** The handler monad *)

Inductive Completion (A : Type) :=
| Normal (a : A)
| Throw (e : JSError).
Arguments Normal {A} a.
Arguments Throw {A} e.

Definition M (A : Type) : Type := World -> Completion A * World.

Definition ret {A} (a : A) : M A := fun w => (Normal a, w).

Definition bind {A B} (m : M A) (k : A -> M B) : M B :=
  fun w =>
    match m w with
    | (Normal a, w') => k a w'
    | (Throw e, w') => (Throw e, w')
    end.

Declare Scope handler_scope.
Delimit Scope handler_scope with handler.
Notation "x <- m ;; k" := (bind m (fun x => k))
  (at level 100, m at next level, right associativity) : handler_scope.
Notation "m ;; k" := (bind m (fun _ => k))
  (at level 100, right associativity) : handler_scope.
Local Open Scope handler_scope.

(** [await] of a settled promise. *)
Definition await {A} (r : Completion A) : M A := fun w => (r, w).

(** [try { body } catch (err) { handler } finally { fin }]. *)
Definition try_catch_finally {A} (body : M A) (handler : JSError -> M A)
    (fin : M unit) : M A :=
  fun w =>
    let '(c, w1) := body w in
    let '(c', w2) :=
      match c with
      | Normal a => (Normal a, w1)
      | Throw e => handler e w1
      end in
    match fin w2 with
    | (Normal _, w3) => (c', w3)
    | (Throw e, w3) => (Throw e, w3)
    end.

Definition modify (f : AppState -> AppState) : M unit :=
  fun w =>
    (Normal tt,
     {| state := f (state w); dir := dir w; console := console w;
        inflight := inflight w; started := started w |}).

(** The setters returned by [useState]. *)
Definition setLanguage (v : jsstring) : M unit :=
  modify (fun s =>
    {| language := v; restaurants := restaurants s; loading := loading s;
       error := error s; userLocation := userLocation s; uiText := uiText s;
       manualLocation := manualLocation s;
       showManualInput := showManualInput s |}).

Definition setRestaurants (v : list Restaurant) : M unit :=
  modify (fun s =>
    {| language := language s; restaurants := v; loading := loading s;
       error := error s; userLocation := userLocation s; uiText := uiText s;
       manualLocation := manualLocation s;
       showManualInput := showManualInput s |}).

Definition setLoading (v : bool) : M unit :=
  modify (fun s =>
    {| language := language s; restaurants := restaurants s; loading := v;
       error := error s; userLocation := userLocation s; uiText := uiText s;
       manualLocation := manualLocation s;
       showManualInput := showManualInput s |}).

Definition setError (v : option jsstring) : M unit :=
  modify (fun s =>
    {| language := language s; restaurants := restaurants s;
       loading := loading s; error := v; userLocation := userLocation s;
       uiText := uiText s; manualLocation := manualLocation s;
       showManualInput := showManualInput s |}).

Definition setUserLocation (v : option Coordinates) : M unit :=
  modify (fun s =>
    {| language := language s; restaurants := restaurants s;
       loading := loading s; error := error s; userLocation := v;
       uiText := uiText s; manualLocation := manualLocation s;
       showManualInput := showManualInput s |}).

Definition setUiText (v : UIText) : M unit :=
  modify (fun s =>
    {| language := language s; restaurants := restaurants s;
       loading := loading s; error := error s;
       userLocation := userLocation s; uiText := v;
       manualLocation := manualLocation s;
       showManualInput := showManualInput s |}).

Definition setManualLocation (v : jsstring) : M unit :=
  modify (fun s =>
    {| language := language s; restaurants := restaurants s;
       loading := loading s; error := error s;
       userLocation := userLocation s; uiText := uiText s;
       manualLocation := v; showManualInput := showManualInput s |}).

Definition setShowManualInput (v : bool) : M unit :=
  modify (fun s =>
    {| language := language s; restaurants := restaurants s;
       loading := loading s; error := error s;
       userLocation := userLocation s; uiText := uiText s;
       manualLocation := manualLocation s; showManualInput := v |}).

Definition setDir (v : jsstring) : M unit :=
  fun w =>
    (Normal tt,
     {| state := state w; dir := v; console := console w;
        inflight := inflight w; started := started w |}).

Definition console_error (err : JSError) : M unit :=
  fun w =>
    (Normal tt,
     {| state := state w; dir := dir w; console := console w ++ [err];
        inflight := inflight w; started := started w |}).

(** Start an asynchronous call: it joins the calls in flight, and the log
    keeps the state cells as they stand at this point of the handler. *)
Definition dispatch (r : Request) (lang : jsstring) (txt : UIText) : M unit :=
  fun w =>
    (Normal tt,
     {| state := state w; dir := dir w; console := console w;
        inflight := inflight w ++
          [{| request := r; closed_language := lang; closed_uiText := txt |}];
        started := started w ++ [(r, state w)] |}).

(** The world a handler run leaves behind, however the run completes. *)
Definition exec (m : M unit) (w : World) : World := snd (m w).

(** ** The handlers of [App.tsx] *)

(** [GeolocationPositionError]'s constants. *)
Definition PERMISSION_DENIED : Z := 1.
Definition POSITION_UNAVAILABLE : Z := 2.
Definition TIMEOUT : Z := 3.

(** The first callback of [getCurrentPosition], up to its [await]. *)
Definition positionCallback (lang : jsstring) (txt : UIText)
    (lat lon : float) : M unit :=
  setUserLocation (Some {| latitude := lat; longitude := lon |}) ;;
  dispatch (fetchRestaurants lat lon lang) lang txt.

(** The rest of that callback, once [fetchRestaurants] has settled. *)
Definition positionFetched (txt : UIText)
    (settled : Completion (list Restaurant)) : M unit :=
  try_catch_finally
    (fetchedRestaurants <- await settled ;;
     setRestaurants fetchedRestaurants)
    (fun err =>
       setError (Some (fetchError txt)) ;;
       console_error err)
    (setLoading false).

(** The second callback of [getCurrentPosition]: the [switch] on
    [geoError.code]. *)
Definition geoErrorCallback (txt : UIText) (code : Z) : M unit :=
  (if code =? PERMISSION_DENIED then
     setError (Some (locationPermissionDenied txt))
   else if code =? POSITION_UNAVAILABLE then
     setError (Some (locationUnavailable txt))
   else if code =? TIMEOUT then
     setError (Some (locationTimeout txt))
   else
     setError (Some (locationError txt))) ;;
  setShowManualInput true ;;
  setLoading false.

(** [handleFindRestaurants], closed over [language] and [uiText];
    [geolocation] tells whether [navigator.geolocation] is there. *)
Definition handleFindRestaurants (lang : jsstring) (txt : UIText)
    (geolocation : bool) : M unit :=
  setLoading true ;;
  setError None ;;
  setRestaurants [] ;;
  setShowManualInput false ;;
  if negb geolocation then
    setError (Some (locationNotSupported txt)) ;;
    setShowManualInput true ;;
    setLoading false
  else
    dispatch getCurrentPosition lang txt.

(** [handleManualSearch] up to its [await], closed over [manualLocation],
    [language] and [uiText].  [e.preventDefault()] touches nothing that is
    modelled here. *)
Definition handleManualSearch (manualLoc lang : jsstring) (txt : UIText)
    : M unit :=
  if negb (truthy (trim manualLoc)) then
    setError (Some (manualLocationError txt))
  else
    setLoading true ;;
    setError None ;;
    setRestaurants [] ;;
    dispatch (fetchRestaurantsByQuery manualLoc lang) lang txt.

(** The rest of [handleManualSearch], once [fetchRestaurantsByQuery] has
    settled. *)
Definition manualFetched (txt : UIText)
    (settled : Completion (list Restaurant)) : M unit :=
  try_catch_finally
    (fetchedRestaurants <- await settled ;;
     setRestaurants fetchedRestaurants)
    (fun err =>
       setError (Some (fetchError txt)) ;;
       console_error err)
    (setLoading false).

(** ** What the component renders, block by block *)

Definition rendersErrorDisplay (s : AppState) : bool := truthy_opt (error s).

Definition rendersManualForm (s : AppState) : bool :=
  showManualInput s && negb (loading s).

Definition rendersLoader (s : AppState) : bool := loading s.

Definition rendersWelcome (s : AppState) : bool :=
  negb (loading s) && negb (truthy_opt (error s)) &&
  (length (restaurants s) =? 0)%nat && negb (showManualInput s).

Definition rendersRestaurantList (s : AppState) : bool :=
  (0 <? length (restaurants s))%nat.

(** Both buttons carry [disabled={loading}]. *)
Definition buttonDisabled (s : AppState) : bool := loading s.

(** ** Events *)

Inductive Event :=
| SelectLanguage (code : jsstring)
| ClickFind (geolocation : bool)
| TypeManual (value : jsstring)
| SubmitManual
| PositionSuccess (i : nat) (lat lon : float)
| PositionError (i : nat) (code : Z)
| FetchSettled (i : nat) (settled : Completion (list Restaurant)).

(** Take the [i]-th call in flight out of the world. *)
Definition take_inflight (i : nat) (w : World) : option (Pending * World) :=
  match inflight w !! i with
  | Some p =>
      Some (p, {| state := state w; dir := dir w; console := console w;
                  inflight := delete i (inflight w);
                  started := started w |})
  | None => None
  end.

(** Modelled from the spec: the table [UI_TEXT] of [./constants], which is
    not among the sources.  The spec names each message by its key and
    lists [en], the default, and [ar], the right-to-left language, as
    supported codes; here every string is its key. *)
Definition UI_TEXT_keys : UIText :=
  {| title := js "title"; subtitle := js "subtitle";
     findButton := js "findButton"; loadingButton := js "loadingButton";
     loaderMessage := js "loaderMessage";
     welcomeMessage := js "welcomeMessage";
     searchButton := js "searchButton";
     manualLocationPrompt := js "manualLocationPrompt";
     manualLocationPlaceholder := js "manualLocationPlaceholder";
     manualLocationError := js "manualLocationError";
     locationNotSupported := js "locationNotSupported";
     locationPermissionDenied := js "locationPermissionDenied";
     locationUnavailable := js "locationUnavailable";
     locationTimeout := js "locationTimeout";
     locationError := js "locationError";
     fetchError := js "fetchError" |}.

(** Modelled from the spec: the two codes the spec names as supported,
    [en] and [ar], each with the text above. *)
Definition UI_TEXT_model : gmap jsstring UIText :=
  <[js "en" := UI_TEXT_keys]> (<[js "ar" := UI_TEXT_keys]> ∅).

(** ** Sample data: a restaurant and some sessions *)

Definition bistro : Restaurant :=
  {| name := js "Bistro"; cuisine := js "French";
     description := js "Small plates" |}.

Definition outage : JSError := ProviderError (js "503").

(** No geolocation, a manual search for Paris answered with one restaurant,
    then the form submitted again with only spaces in it. *)
Definition session_results : list Event :=
  [ClickFind false; TypeManual (js "Paris"); SubmitManual;
   FetchSettled 0 (Normal [bistro])].

Definition session_blank_after_results : list Event :=
  session_results ++ [TypeManual (js "   "); SubmitManual].

(** An automatic search up to the provider call, and the same search
    ending in a provider failure. *)
Definition session_located : list Event :=
  [ClickFind true; PositionSuccess 0 37.0%float (-122.0)%float].

Definition session_failed : list Event :=
  session_located ++ [FetchSettled 0 (Throw outage)].

(** Geolocation refused, then Paris typed into the manual form. *)
Definition session_typed : list Event :=
  [ClickFind true; PositionError 0 1; TypeManual (js "Paris")].




(** ** Reading a property of the table

    A property read on an object looks at the object's own properties and
    then at its prototype.  The names under which [Object.prototype] has a
    member: *)
Definition Object_prototype_names : list jsstring :=
  map js
    ["constructor"; "__defineGetter__"; "__defineSetter__";
     "hasOwnProperty"; "__lookupGetter__"; "__lookupSetter__";
     "isPrototypeOf"; "propertyIsEnumerable"; "toString"; "valueOf";
     "__proto__"; "toLocaleString"]%string.

Definition inherited_name (code : jsstring) : bool :=
  existsb (fun name => bool_decide (code = name)) Object_prototype_names.

(** What [UI_TEXT[code]] can be: a text record of the table, the member
    [Object.prototype] has under that name (a function, or
    [Object.prototype] itself under [__proto__]), or [undefined]. *)
Inductive Looked :=
| Entry (t : UIText)
| Inherited (name : jsstring)
| Undefined.

Section Localization.

(** The table [UI_TEXT] of [./constants] and its entry [UI_TEXT['en']].
    The table is taken as an ordinary object: its own properties, from
    language codes to text records, are the entries of this finite map,
    and its prototype is [Object.prototype]. *)
Variable UI_TEXT : gmap jsstring UIText.
Variable UI_TEXT_en : UIText.
Hypothesis UI_TEXT_has_en : UI_TEXT !! js "en" = Some UI_TEXT_en.

(** [UI_TEXT[code]]: an own entry first, then the prototype. *)
Definition UI_TEXT_get (code : jsstring) : Looked :=
  match UI_TEXT !! code with
  | Some t => Entry t
  | None => if inherited_name code then Inherited code else Undefined
  end.

(** [UI_TEXT[language] || UI_TEXT['en']]: a record, a function and
    [Object.prototype] are truthy; only [undefined] falls through to the
    [en] entry. *)
Definition resolve (code : jsstring) : Looked :=
  match UI_TEXT_get code with
  | Undefined => Entry UI_TEXT_en
  | found => found
  end.

(** Whether the read of [code] ends at the prototype. *)
Definition inherits (code : jsstring) : bool :=
  match UI_TEXT_get code with
  | Inherited _ => true
  | _ => false
  end.

Definition direction (code : jsstring) : jsstring :=
  if decide (code = js "ar") then js "rtl" else js "ltr".

(** [setUiText] on what was looked up.  A value is stored as it is; a
    function is taken as an updater, called on the current state, and its
    result is stored.  [Object], found under [constructor], gives a text
    record back unchanged.  The other inherited members give something
    that is not a text record ([Object.prototype] itself, a string) or
    throw on their missing receiver: for these the result is [None], the
    state that follows not being an [AppState]. *)
Definition setUiText_looked (found : Looked) : option (M unit) :=
  match found with
  | Entry t => Some (setUiText t)
  | Inherited name =>
      if decide (name = js "constructor") then Some (ret tt) else None
  | Undefined => None
  end.

(** The effect on [language]. *)
Definition languageEffect (lang : jsstring) : option (M unit) :=
  match setUiText_looked (resolve lang) with
  | Some set =>
      Some (set ;;
            if decide (lang = js "ar") then setDir (js "rtl")
            else setDir (js "ltr"))
  | None => None
  end.

Definition initialState : AppState :=
  {| language := js "en"; restaurants := []; loading := false;
     error := None; userLocation := None; uiText := UI_TEXT_en;
     manualLocation := js ""; showManualInput := false |}.

(** The world after the first render and its effect; [dir0] is the
    direction the document came with. *)
Definition mount (dir0 : jsstring) : World :=
  let first :=
    {| state := initialState; dir := dir0; console := []; inflight := [];
       started := [] |} in
  match languageEffect (js "en") with
  | Some effect => exec effect first
  | None => first
  end.

(** One event.  [None] when the view offers no such event: a disabled
    button, a form that is not rendered, or no such call in flight; and
    when a language is selected whose effect leaves the states described
    here (see [setUiText_looked]).
    The updates of one handler run are applied as one batch, so the view
    is rendered from the world the run leaves.  A language that does not
    change causes no render and no effect; one that changes is followed by
    the effect before any other event. *)
Definition step (ev : Event) (w : World) : option World :=
  let s := state w in
  match ev with
  | SelectLanguage code =>
      if decide (code = language s) then Some w
      else
        match languageEffect code with
        | Some effect => Some (exec (setLanguage code ;; effect) w)
        | None => None
        end
  | ClickFind geolocation =>
      if buttonDisabled s then None
      else Some (exec (handleFindRestaurants (language s) (uiText s)
                         geolocation) w)
  | TypeManual value =>
      if rendersManualForm s then Some (exec (setManualLocation value) w)
      else None
  | SubmitManual =>
      if rendersManualForm s then
        Some (exec (handleManualSearch (manualLocation s) (language s)
                      (uiText s)) w)
      else None
  | PositionSuccess i lat lon =>
      match take_inflight i w with
      | Some (p, w') =>
          match request p with
          | getCurrentPosition =>
              Some (exec (positionCallback (closed_language p)
                            (closed_uiText p) lat lon) w')
          | _ => None
          end
      | None => None
      end
  | PositionError i code =>
      match take_inflight i w with
      | Some (p, w') =>
          match request p with
          | getCurrentPosition =>
              Some (exec (geoErrorCallback (closed_uiText p) code) w')
          | _ => None
          end
      | None => None
      end
  | FetchSettled i settled =>
      match take_inflight i w with
      | Some (p, w') =>
          match request p with
          | fetchRestaurants _ _ _ =>
              Some (exec (positionFetched (closed_uiText p) settled) w')
          | fetchRestaurantsByQuery _ _ =>
              Some (exec (manualFetched (closed_uiText p) settled) w')
          | getCurrentPosition => None
          end
      | None => None
      end
  end.

Fixpoint run (evs : list Event) (w : World) : option World :=
  match evs with
  | [] => Some w
  | ev :: evs' =>
      match step ev w with
      | Some w' => run evs' w'
      | None => None
      end
  end.

(** The world a session ends in; the mounted world when the view does not
    offer one of its events. *)
Definition world_after (dir0 : jsstring) (evs : list Event) : World :=
  default (mount dir0) (run evs (mount dir0)).

(** The text in the state once [code] is selected: the record found, or
    the text there was when the read ends at [Object]. *)
Definition text_after (code : jsstring) (previous : UIText) : UIText :=
  match resolve code with
  | Entry t => t
  | _ => previous
  end.

(** The world with language [code] selected. *)
Definition selected (code : jsstring) (w : World) : World :=
  {| state :=
       {| language := code; restaurants := restaurants (state w);
          loading := loading (state w); error := error (state w);
          userLocation := userLocation (state w);
          uiText := text_after code (uiText (state w));
          manualLocation := manualLocation (state w);
          showManualInput := showManualInput (state w) |};
     dir := direction code; console := console w; inflight := inflight w;
     started := started w |}.

(** ** Reading the claims off the state

    The spec's four location-failure kinds, the message it assigns to
    each, and its three primary indications. *)

Inductive FailureKind :=
| PermissionDenied | PositionUnavailable | LocationTimeout | LocationUnknown.

Definition classify (code : Z) : FailureKind :=
  if code =? 1 then PermissionDenied
  else if code =? 2 then PositionUnavailable
  else if code =? 3 then LocationTimeout
  else LocationUnknown.

Definition failure_message (txt : UIText) (k : FailureKind) : jsstring :=
  match k with
  | PermissionDenied => locationPermissionDenied txt
  | PositionUnavailable => locationUnavailable txt
  | LocationTimeout => locationTimeout txt
  | LocationUnknown => locationError txt
  end.

Definition has_error (s : AppState) : bool :=
  match error s with Some _ => true | None => false end.

Definition has_results (s : AppState) : bool :=
  match restaurants s with [] => false | _ :: _ => true end.


(** An event that begins a search in world [w]. *)
Definition starts_search (ev : Event) (w : World) : bool :=
  match ev with
  | ClickFind geolocation => geolocation
  | SubmitManual => truthy (trim (manualLocation (state w)))
  | _ => false
  end.



(** Along the run of [evs] from [w], [w] included: was an error or a
    non-empty list of results ever in the state? *)
Fixpoint saw_outcome (evs : list Event) (w : World) : bool :=
  has_error (state w) || has_results (state w) ||
  match evs with
  | [] => false
  | ev :: evs' =>
      match step ev w with
      | Some w' => saw_outcome evs' w'
      | None => false
      end
  end.

(** An automatic search that ends with an empty answer. *)
Definition empty_search (lat lon : float) : list Event :=
  [ClickFind true; PositionSuccess 0 lat lon; FetchSettled 0 (Normal [])].

(** ** The handlers, one at a time *)

Lemma trim_blank_example : trim (js "") = [] /\ trim (js "   ") = [].
Proof. split; reflexivity. Qed.

(** C2. A query whose trim is empty starts no call: nothing joins the
    calls in flight or the log of started calls, the handler completes
    normally with [error] set to [manualLocationError], and [loading] is
    as it was, so a form submitted while not loading stays out of
    loading. *)
Theorem manual_guard (manualLoc lang : jsstring) (txt : UIText) (w : World) :
  trim manualLoc = [] ->
  fst (handleManualSearch manualLoc lang txt w) = Normal tt /\
  let w' := exec (handleManualSearch manualLoc lang txt) w in
  inflight w' = inflight w /\
  started w' = started w /\
  error (state w') = Some (manualLocationError txt) /\
  loading (state w') = loading (state w) /\
  rendersLoader (state w') = rendersLoader (state w).
Proof.
  intros Hblank. unfold handleManualSearch, exec.
  rewrite Hblank. simpl. repeat split.
Qed.

(** C10. On a blank query the submit handler changes [error] and nothing
    else: the other seven state cells, the document direction, the
    console, the calls in flight and the log are as before; the results
    are not cleared and the manual-entry flag is not reset. *)
Theorem manual_guard_frame (manualLoc lang : jsstring) (txt : UIText)
    (w : World) :
  trim manualLoc = [] ->
  let w' := exec (handleManualSearch manualLoc lang txt) w in
  error (state w') = Some (manualLocationError txt) /\
  restaurants (state w') = restaurants (state w) /\
  loading (state w') = loading (state w) /\
  showManualInput (state w') = showManualInput (state w) /\
  userLocation (state w') = userLocation (state w) /\
  language (state w') = language (state w) /\
  uiText (state w') = uiText (state w) /\
  manualLocation (state w') = manualLocation (state w) /\
  dir w' = dir w /\ console w' = console w /\
  inflight w' = inflight w /\ started w' = started w.
Proof.
  intros Hblank. unfold handleManualSearch, exec.
  rewrite Hblank. simpl. repeat split.
Qed.

(** C5. Without the geolocation capability the find handler starts no
    call at all and ends, in the same run, with [error] set to
    [locationNotSupported], the manual-entry flag on and [loading] off:
    the manual form is rendered and the loader is not. *)
Theorem capability_short_circuit (lang : jsstring) (txt : UIText)
    (w : World) :
  fst (handleFindRestaurants lang txt false w) = Normal tt /\
  let w' := exec (handleFindRestaurants lang txt false) w in
  inflight w' = inflight w /\
  started w' = started w /\
  error (state w') = Some (locationNotSupported txt) /\
  showManualInput (state w') = true /\
  loading (state w') = false /\
  restaurants (state w') = [] /\
  rendersManualForm (state w') = true /\
  rendersLoader (state w') = false.
Proof. unfold handleFindRestaurants, exec. simpl. repeat split. Qed.

Lemma geoErrorCallback_spec (txt : UIText) (code : Z) (w : World) :
  fst (geoErrorCallback txt code w) = Normal tt /\
  let w' := exec (geoErrorCallback txt code) w in
  error (state w') = Some (failure_message txt (classify code)) /\
  showManualInput (state w') = true /\
  loading (state w') = false /\
  restaurants (state w') = restaurants (state w) /\
  language (state w') = language (state w) /\
  uiText (state w') = uiText (state w) /\
  dir w' = dir w /\ inflight w' = inflight w /\ started w' = started w.
Proof.
  unfold geoErrorCallback, exec, classify, PERMISSION_DENIED,
    POSITION_UNAVAILABLE, TIMEOUT.
  destruct (code =? 1); [simpl; repeat split|].
  destruct (code =? 2); [simpl; repeat split|].
  destruct (code =? 3); simpl; repeat split.
Qed.

Lemma classify_codes :
  classify 1 = PermissionDenied /\ classify 2 = PositionUnavailable /\
  classify 3 = LocationTimeout /\
  forall code, code <> 1 -> code <> 2 -> code <> 3 ->
    classify code = LocationUnknown.
Proof.
  repeat split; try reflexivity.
  intros code H1 H2 H3. unfold classify.
  destruct (Z.eqb_spec code 1); [lia|].
  destruct (Z.eqb_spec code 2); [lia|].
  destruct (Z.eqb_spec code 3); [lia|reflexivity].
Qed.

(** C4. Given a text record whose four location messages are non-empty
    and pairwise distinct, the failure callback sets, for every code,
    the message of the code's kind (code 1 permission denied, 2 position
    unavailable, 3 timeout, anything else the default), a non-empty
    string; two codes of different kinds get different messages; and in
    every case the manual-entry flag is set and [loading] is cleared. *)
Theorem failure_classification (txt : UIText) (code : Z) (w : World) :
  (forall k, truthy (failure_message txt k) = true) ->
  NoDup [locationPermissionDenied txt; locationUnavailable txt;
         locationTimeout txt; locationError txt] ->
  let w' := exec (geoErrorCallback txt code) w in
  error (state w') = Some (failure_message txt (classify code)) /\
  rendersErrorDisplay (state w') = true /\
  showManualInput (state w') = true /\
  loading (state w') = false /\
  (forall code2, classify code2 <> classify code ->
     error (state (exec (geoErrorCallback txt code2) w))
     <> error (state w')) /\
  classify 1 = PermissionDenied /\ classify 2 = PositionUnavailable /\
  classify 3 = LocationTimeout /\
  (code <> 1 -> code <> 2 -> code <> 3 -> classify code = LocationUnknown).
Proof.
  intros Hne Hdup w'.
  destruct (geoErrorCallback_spec txt code w) as (_ & He & Hm & Hl & _).
  fold w' in He, Hm, Hl.
  split; [exact He|]. split.
  { unfold rendersErrorDisplay. rewrite He. simpl. apply Hne. }
  split; [exact Hm|]. split; [exact Hl|]. split.
  - intros code2 Hk.
    destruct (geoErrorCallback_spec txt code2 w) as (_ & He2 & _).
    rewrite He, He2. intros Heq. apply Hk. injection Heq as Heq.
    apply NoDup_cons in Hdup as [N1 Hdup].
    apply NoDup_cons in Hdup as [N2 Hdup].
    apply NoDup_cons in Hdup as [N3 _].
    apply not_elem_of_cons in N1 as (A1 & N1).
    apply not_elem_of_cons in N1 as (A2 & N1).
    apply not_elem_of_cons in N1 as (A3 & _).
    apply not_elem_of_cons in N2 as (B1 & N2).
    apply not_elem_of_cons in N2 as (B2 & _).
    apply not_elem_of_cons in N3 as (C1 & _).
    destruct (classify code2), (classify code); simpl in Heq;
      congruence.
  - destruct classify_codes as (C1 & C2 & C3 & C4). auto.
Qed.

(** ** Invariants of the runs *)

(** While [loading] is set exactly one call is in flight and neither an
    error nor results are in the state; otherwise no call is in flight. *)
Definition quiescent (w : World) : Prop :=
  (loading (state w) = true ->
     error (state w) = None /\ restaurants (state w) = [] /\
     length (inflight w) = 1%nat) /\
  (loading (state w) = false -> inflight w = []).

(** The text follows the language whenever the language resolves to a
    record, and the document direction follows it always. *)
Definition localized (w : World) : Prop :=
  (forall t, resolve (language (state w)) = Entry t ->
     uiText (state w) = t) /\
  dir w = direction (language (state w)).

(** Every call was started on a state without results and without error,
    and the geolocation request with the manual-entry flag off. *)
Definition reset_at_start (c : Request * AppState) : Prop :=
  restaurants (snd c) = [] /\ error (snd c) = None /\
  (fst c = getCurrentPosition -> showManualInput (snd c) = false).

Lemma inherited_name_en : inherited_name (js "en") = false.
Proof. vm_compute. reflexivity. Qed.

Lemma mount_eq (dir0 : jsstring) :
  mount dir0 =
  {| state :=
       {| language := js "en"; restaurants := []; loading := false;
          error := None; userLocation := None;
          uiText := default UI_TEXT_en (UI_TEXT !! js "en");
          manualLocation := js ""; showManualInput := false |};
     dir := js "ltr"; console := []; inflight := []; started := [] |}.
Proof.
  clear UI_TEXT_has_en.
  unfold mount, languageEffect, resolve, UI_TEXT_get.
  destruct (UI_TEXT !! js "en") as [t|]; [reflexivity|].
  rewrite inherited_name_en. reflexivity.
Qed.

Lemma languageEffect_selected (code : jsstring) (effect : M unit)
    (w : World) :
  languageEffect code = Some effect ->
  exec (setLanguage code ;; effect) w = selected code w.
Proof.
  unfold languageEffect, setUiText_looked, selected, text_after, direction.
  destruct (resolve code) as [t|name|];
    [|destruct (decide (name = js "constructor"))|];
    intros Heff; try discriminate; injection Heff as <-;
    unfold exec; destruct (decide (code = js "ar")); reflexivity.
Qed.

Lemma take_inflight_quiescent (w w0 : World) (i : nat) (p : Pending) :
  quiescent w -> take_inflight i w = Some (p, w0) ->
  loading (state w) = true /\ error (state w) = None /\
  restaurants (state w) = [] /\ inflight w = [p] /\ i = 0%nat /\
  w0 = {| state := state w; dir := dir w; console := console w;
          inflight := []; started := started w |}.
Proof.
  intros [Hbusy Hidle] Htake. unfold take_inflight in Htake.
  destruct (inflight w !! i) as [q|] eqn:Hq; [|discriminate].
  injection Htake as -> <-.
  destruct (loading (state w)) eqn:Hl.
  - destruct (Hbusy eq_refl) as (He & Hr & Hlen).
    destruct (inflight w) as [|a [|b l]]; simpl in Hlen; try discriminate.
    destruct i as [|i]; simpl in Hq; [|discriminate].
    injection Hq as ->. repeat split; auto.
  - rewrite (Hidle eq_refl) in Hq. discriminate.
Qed.

Lemma mount_quiescent (dir0 : jsstring) : quiescent (mount dir0).
Proof. rewrite mount_eq. split; simpl; [discriminate|reflexivity]. Qed.

Lemma mount_localized (dir0 : jsstring) : localized (mount dir0).
Proof.
  clear UI_TEXT_has_en.
  rewrite mount_eq. split; [|reflexivity].
  cbn [state language uiText]. unfold resolve, UI_TEXT_get. intros t.
  destruct (UI_TEXT !! js "en") as [t'|].
  - intros Heq. injection Heq as <-. reflexivity.
  - rewrite inherited_name_en. intros Heq. injection Heq as <-. reflexivity.
Qed.

Lemma step_quiescent (ev : Event) (w w' : World) :
  quiescent w -> step ev w = Some w' -> quiescent w'.
Proof.
  intros Hq Hstep. pose proof Hq as [Hbusy Hidle].
  destruct ev as [code|geo| value| |i lat lon|i code|i settled];
    simpl in Hstep.
  - destruct (decide (code = language (state w)));
      [injection Hstep as <-; exact Hq|].
    destruct (languageEffect code) as [effect|] eqn:Heff; [|discriminate].
    injection Hstep as <-. rewrite (languageEffect_selected _ _ w Heff).
    exact Hq.
  - unfold buttonDisabled in Hstep.
    destruct (loading (state w)) eqn:Hl; [discriminate|].
    injection Hstep as <-. unfold quiescent, exec, handleFindRestaurants.
    destruct geo; simpl; rewrite (Hidle eq_refl);
      split; intros; try discriminate; auto.
  - destruct (rendersManualForm (state w)); [|discriminate].
    injection Hstep as <-. exact Hq.
  - unfold rendersManualForm in Hstep.
    destruct (showManualInput (state w)); [|discriminate].
    destruct (loading (state w)) eqn:Hl; [discriminate|].
    injection Hstep as <-. unfold exec, handleManualSearch.
    unfold quiescent.
    destruct (truthy (trim (manualLocation (state w)))); simpl.
    + rewrite (Hidle eq_refl). split; intros; try discriminate; auto.
    + split; intros; [congruence|]. auto.
  - destruct (take_inflight i w) as [[p w0]|] eqn:Ht; [|discriminate].
    destruct (take_inflight_quiescent _ _ _ _ Hq Ht)
      as (Hl & He & Hr & Hp & -> & ->).
    destruct (request p); try discriminate.
    injection Hstep as <-. split; simpl; intros; [auto|congruence].
  - destruct (take_inflight i w) as [[p w0]|] eqn:Ht; [|discriminate].
    destruct (take_inflight_quiescent _ _ _ _ Hq Ht)
      as (Hl & He & Hr & Hp & -> & ->).
    destruct (request p); try discriminate.
    injection Hstep as <-.
    destruct (geoErrorCallback_spec (closed_uiText p) code
      {| state := state w; dir := dir w; console := console w;
         inflight := []; started := started w |})
      as (_ & _ & _ & Hl' & _ & _ & _ & _ & Hi & _).
    split; intros; [congruence|exact Hi].
  - destruct (take_inflight i w) as [[p w0]|] eqn:Ht; [|discriminate].
    destruct (take_inflight_quiescent _ _ _ _ Hq Ht)
      as (Hl & He & Hr & Hp & -> & ->).
    destruct (request p); try discriminate;
      injection Hstep as <-; destruct settled;
      split; simpl; intros; try discriminate; auto.
Qed.

Lemma step_localized (ev : Event) (w w' : World) :
  localized w -> step ev w = Some w' -> localized w'.
Proof.
  intros Hloc Hstep. pose proof Hloc as [Htxt Hdir].
  destruct ev as [code|geo| value| |i lat lon|i code|i settled];
    simpl in Hstep.
  - destruct (decide (code = language (state w)));
      [injection Hstep as <-; exact Hloc|].
    destruct (languageEffect code) as [effect|] eqn:Heff; [|discriminate].
    injection Hstep as <-. rewrite (languageEffect_selected _ _ w Heff).
    split; [|reflexivity].
    intros t Ht. simpl in *. unfold text_after. rewrite Ht. reflexivity.
  - destruct (buttonDisabled (state w)); [discriminate|].
    injection Hstep as <-. destruct geo; exact Hloc.
  - destruct (rendersManualForm (state w)); [|discriminate].
    injection Hstep as <-. exact Hloc.
  - destruct (rendersManualForm (state w)); [|discriminate].
    injection Hstep as <-. unfold exec, handleManualSearch.
    destruct (truthy (trim (manualLocation (state w)))); exact Hloc.
  - unfold take_inflight in Hstep.
    destruct (inflight w !! i) as [p|]; [|discriminate].
    destruct (request p); try discriminate.
    injection Hstep as <-. exact Hloc.
  - unfold take_inflight in Hstep.
    destruct (inflight w !! i) as [p|]; [|discriminate].
    destruct (request p); try discriminate.
    injection Hstep as <-.
    match goal with |- localized (exec (geoErrorCallback ?t ?c) ?v) =>
      destruct (geoErrorCallback_spec t c v)
        as (_ & _ & _ & _ & _ & Hlang & Htxt' & Hdir' & _) end.
    unfold localized. rewrite Hlang, Htxt', Hdir'. exact Hloc.
  - unfold take_inflight in Hstep.
    destruct (inflight w !! i) as [p|]; [|discriminate].
    destruct (request p); try discriminate;
      injection Hstep as <-; destruct settled; exact Hloc.
Qed.

Lemma run_quiescent (evs : list Event) (w w' : World) :
  quiescent w -> run evs w = Some w' -> quiescent w'.
Proof.
  revert w. induction evs as [|ev evs IH]; intros w Hq Hrun; simpl in Hrun.
  - injection Hrun as <-. exact Hq.
  - destruct (step ev w) as [w1|] eqn:Hstep; [|discriminate].
    eapply IH; [|exact Hrun]. eapply step_quiescent; eassumption.
Qed.

Lemma run_localized (evs : list Event) (w w' : World) :
  localized w -> run evs w = Some w' -> localized w'.
Proof.
  revert w. induction evs as [|ev evs IH]; intros w Hq Hrun; simpl in Hrun.
  - injection Hrun as <-. exact Hq.
  - destruct (step ev w) as [w1|] eqn:Hstep; [|discriminate].
    eapply IH; [|exact Hrun]. eapply step_localized; eassumption.
Qed.

Lemma step_started_reset (ev : Event) (w w' : World) :
  quiescent w -> Forall reset_at_start (started w) ->
  step ev w = Some w' -> Forall reset_at_start (started w').
Proof.
  intros Hq Hlog Hstep.
  destruct ev as [code|geo| value| |i lat lon|i code|i settled];
    simpl in Hstep.
  - destruct (decide (code = language (state w)));
      [injection Hstep as <-; exact Hlog|].
    destruct (languageEffect code) as [effect|] eqn:Heff; [|discriminate].
    injection Hstep as <-. rewrite (languageEffect_selected _ _ w Heff).
    exact Hlog.
  - destruct (buttonDisabled (state w)); [discriminate|].
    injection Hstep as <-. destruct geo; simpl; [|exact Hlog].
    apply Forall_app. split; [exact Hlog|].
    repeat constructor.
  - destruct (rendersManualForm (state w)); [|discriminate].
    injection Hstep as <-. exact Hlog.
  - destruct (rendersManualForm (state w)); [|discriminate].
    injection Hstep as <-. unfold exec, handleManualSearch.
    destruct (truthy (trim (manualLocation (state w)))); simpl;
      [|exact Hlog].
    apply Forall_app. split; [exact Hlog|].
    repeat constructor. discriminate.
  - destruct (take_inflight i w) as [[p w0]|] eqn:Ht; [|discriminate].
    destruct (take_inflight_quiescent _ _ _ _ Hq Ht)
      as (Hl & He & Hr & Hp & -> & ->).
    destruct (request p); try discriminate.
    injection Hstep as <-. simpl.
    apply Forall_app. split; [exact Hlog|].
    repeat constructor; simpl; auto. discriminate.
  - destruct (take_inflight i w) as [[p w0]|] eqn:Ht; [|discriminate].
    destruct (take_inflight_quiescent _ _ _ _ Hq Ht)
      as (Hl & He & Hr & Hp & -> & ->).
    destruct (request p); try discriminate.
    injection Hstep as <-.
    match goal with |- context [exec (geoErrorCallback ?t ?c) ?v] =>
      destruct (geoErrorCallback_spec t c v)
        as (_ & _ & _ & _ & _ & _ & _ & _ & _ & Hs) end.
    rewrite Hs. exact Hlog.
  - destruct (take_inflight i w) as [[p w0]|] eqn:Ht; [|discriminate].
    destruct (take_inflight_quiescent _ _ _ _ Hq Ht)
      as (Hl & He & Hr & Hp & -> & ->).
    destruct (request p); try discriminate;
      injection Hstep as <-; destruct settled; exact Hlog.
Qed.

(** On every run, each asynchronous call (the geolocation request and
    both provider calls) was started on a state without results and
    without error. *)
Lemma run_started_reset (dir0 : jsstring) (evs : list Event) (w : World) :
  run evs (mount dir0) = Some w -> Forall reset_at_start (started w).
Proof.
  assert (Hgen : forall evs w0 w1,
    quiescent w0 -> Forall reset_at_start (started w0) ->
    run evs w0 = Some w1 -> Forall reset_at_start (started w1)).
  { clear. induction evs as [|ev evs' IH]; intros w0 w1 Hq Hlog Hrun;
      simpl in Hrun.
    - injection Hrun as <-. exact Hlog.
    - destruct (step ev w0) as [w2|] eqn:Hstep; [|discriminate].
      apply (IH w2 w1); [| |exact Hrun].
      + eapply step_quiescent; eassumption.
      + eapply step_started_reset; eassumption. }
  intros Hrun. apply (Hgen evs (mount dir0) w); [| |exact Hrun].
  - apply mount_quiescent.
  - rewrite mount_eq. constructor.
Qed.

(** C3. An event that begins a search (the find button with geolocation
    present, or the manual form with a query whose trim is not empty)
    starts exactly one call, and the state cells at that point of the
    handler have [restaurants = []], [error = None] and [loading] set;
    on the automatic path the call is the geolocation request and
    the manual-entry flag is off as well; on the manual path it is the
    provider call for the typed query. *)
Theorem reset_before_dispatch (ev : Event) (w w' : World) :
  step ev w = Some w' ->
  starts_search ev w = true ->
  exists (r : Request) (snap : AppState),
    started w' = started w ++ [(r, snap)] /\
    length (inflight w') = S (length (inflight w)) /\
    restaurants snap = [] /\ error snap = None /\ loading snap = true /\
    (forall geo, ev = ClickFind geo ->
       r = getCurrentPosition /\ showManualInput snap = false) /\
    (ev = SubmitManual ->
       r = fetchRestaurantsByQuery (manualLocation (state w))
             (language (state w))).
Proof.
  intros Hstep Hstart.
  destruct ev as [code|geo| value| |i lat lon|i code|i settled];
    simpl in Hstart; try discriminate; simpl in Hstep.
  - subst geo. destruct (buttonDisabled (state w)); [discriminate|].
    injection Hstep as <-. eexists _, _. simpl.
    split; [reflexivity|]. rewrite length_app. simpl.
    repeat split; try lia; intros; try discriminate; reflexivity.
  - destruct (rendersManualForm (state w)); [|discriminate].
    injection Hstep as <-. unfold exec, handleManualSearch.
    rewrite Hstart. eexists _, _. simpl.
    split; [reflexivity|]. rewrite length_app. simpl.
    repeat split; try lia; intros; try discriminate; reflexivity.
Qed.

(** ** Exclusivity *)



(** ** Provider answers *)

Lemma fetched_never_throws (txt : UIText)
    (settled : Completion (list Restaurant)) (w : World) :
  fst (positionFetched txt settled w) = Normal tt /\
  fst (manualFetched txt settled w) = Normal tt.
Proof. destruct settled; split; reflexivity. Qed.

(** C6. On every run, when a provider call fails (on either path) the
    continuation completes normally (nothing is rethrown) and
    leaves [error] at the [fetchError] of the text the search was started
    with, [restaurants] empty and [loading] off; the failure goes to the
    console. *)
Theorem provider_failure (dir0 : jsstring) (evs : list Event) (w w' : World)
    (i : nat) (e : JSError) :
  run evs (mount dir0) = Some w ->
  step (FetchSettled i (Throw e)) w = Some w' ->
  exists p : Pending,
    inflight w !! i = Some p /\
    error (state w') = Some (fetchError (closed_uiText p)) /\
    restaurants (state w') = [] /\
    loading (state w') = false /\
    inflight w' = [] /\
    console w' = console w ++ [e] /\
    forall w0 : World,
      fst (positionFetched (closed_uiText p) (Throw e) w0) = Normal tt /\
      fst (manualFetched (closed_uiText p) (Throw e) w0) = Normal tt.
Proof.
  intros Hrun Hstep.
  pose proof (run_quiescent _ _ _ (mount_quiescent dir0) Hrun) as Hq.
  simpl in Hstep.
  destruct (take_inflight i w) as [[p w0]|] eqn:Ht; [|discriminate].
  destruct (take_inflight_quiescent _ _ _ _ Hq Ht)
    as (Hl & He & Hr & Hp & -> & ->).
  exists p. rewrite Hp. split; [reflexivity|].
  destruct (request p); try discriminate; injection Hstep as <-; simpl;
    rewrite Hr; repeat split.
Qed.

(** C8. On every run, when the manual form is shown with a query whose
    trim is not empty, submitting it and then receiving an empty list
    from the provider is a run of the component, and it ends with
    [restaurants = []], [error = None] and [loading] off: no error is
    displayed. *)
Theorem empty_answer_is_no_error (dir0 : jsstring) (evs : list Event)
    (w : World) :
  run evs (mount dir0) = Some w ->
  rendersManualForm (state w) = true ->
  truthy (trim (manualLocation (state w))) = true ->
  exists w' : World,
    run [SubmitManual; FetchSettled 0 (Normal [])] w = Some w' /\
    restaurants (state w') = [] /\
    error (state w') = None /\
    loading (state w') = false /\
    rendersErrorDisplay (state w') = false /\
    rendersLoader (state w') = false /\
    inflight w' = [].
Proof.
  intros Hrun Hform Hq.
  destruct (run_quiescent _ _ _ (mount_quiescent dir0) Hrun) as [_ Hidle].
  unfold rendersManualForm in Hform.
  apply andb_true_iff in Hform as [Hshow Hl].
  apply negb_true_iff in Hl.
  eexists. split.
  - unfold run, step, rendersManualForm. rewrite Hshow, Hl. simpl.
    unfold exec, handleManualSearch. rewrite Hq. simpl.
    unfold take_inflight. simpl. rewrite (Hidle Hl). simpl.
    reflexivity.
  - simpl. repeat split.
Qed.

(** ** Localization *)

Lemma resolve_entry (code : jsstring) :
  inherits code = false -> exists t, resolve code = Entry t.
Proof.
  unfold inherits, resolve.
  destruct (UI_TEXT_get code) as [t|name|]; intros Hin;
    [exists t|discriminate|exists UI_TEXT_en]; reflexivity.
Qed.


(** ** The welcome placeholder *)

Lemma rendersWelcome_iff (s : AppState) :
  rendersWelcome s = true <->
  loading s = false /\ truthy_opt (error s) = false /\
  restaurants s = [] /\ showManualInput s = false.
Proof.
  unfold rendersWelcome.
  rewrite !andb_true_iff, !negb_true_iff, Nat.eqb_eq, length_zero_iff_nil.
  tauto.
Qed.

(** C9, as the code has it.  The welcome placeholder is rendered exactly
    when, in the current state, [loading] is off, no non-empty error is
    set, [restaurants] is empty and the manual-entry flag is off.  What
    happened before plays no part: on every run, from a state that is
    not loading, an automatic search that the provider answers with an
    empty list is a run of the component and ends with the placeholder
    rendered. *)
Theorem welcome_by_current_flags (dir0 : jsstring) (evs : list Event)
    (w : World) (lat lon : float) :
  run evs (mount dir0) = Some w ->
  loading (state w) = false ->
  (forall s : AppState,
     rendersWelcome s = true <->
     loading s = false /\ truthy_opt (error s) = false /\
     restaurants s = [] /\ showManualInput s = false) /\
  exists w' : World,
    run (empty_search lat lon) w = Some w' /\
    rendersWelcome (state w') = true.
Proof.
  intros Hrun Hl. split; [exact rendersWelcome_iff|].
  destruct (run_quiescent _ _ _ (mount_quiescent dir0) Hrun) as [_ Hidle].
  eexists. split.
  - unfold empty_search, run, step, buttonDisabled. rewrite Hl.
    unfold exec, handleFindRestaurants, take_inflight. simpl.
    rewrite (Hidle Hl). simpl. reflexivity.
  - reflexivity.
Qed.

End Localization.

(** ** The theorems at work on the sample sessions

    All of them over the modelled table, from a document that came without
    a direction. *)

Lemma manual_guard_witness :
  trim (js "   ") = [] /\
  let w := world_after UI_TEXT_model UI_TEXT_keys (js "") session_results in
  let w' := exec (handleManualSearch (js "   ") (js "en") UI_TEXT_keys) w in
  inflight w' = [] /\ started w' = started w /\
  error (state w') = Some (js "manualLocationError") /\
  loading (state w') = false.
Proof.
  split; [reflexivity|]. intros w w'.
  destruct (manual_guard (js "   ") (js "en") UI_TEXT_keys w eq_refl)
    as (_ & Hi & Hs & He & Hl & _).
  split; [exact Hi|]. split; [exact Hs|]. split; [exact He|exact Hl].
Defined.

Lemma manual_guard_frame_witness :
  let w := world_after UI_TEXT_model UI_TEXT_keys (js "") session_results in
  let w' := exec (handleManualSearch (js "   ") (js "en") UI_TEXT_keys) w in
  restaurants (state w) = [bistro] /\
  restaurants (state w') = [bistro] /\
  showManualInput (state w') = true /\
  manualLocation (state w') = js "Paris".
Proof.
  intros w w'.
  destruct (manual_guard_frame (js "   ") (js "en") UI_TEXT_keys w eq_refl)
    as (_ & Hr & _ & Hs & _ & _ & _ & Hm & _).
  split; [vm_compute; reflexivity|].
  split; [exact Hr|]. split; [exact Hs|exact Hm].
Defined.

Lemma failure_classification_witness :
  let w := world_after UI_TEXT_model UI_TEXT_keys (js "") [ClickFind true] in
  error (state (exec (geoErrorCallback UI_TEXT_keys 2) w))
    = Some (js "locationUnavailable") /\
  error (state (exec (geoErrorCallback UI_TEXT_keys 7) w))
    <> error (state (exec (geoErrorCallback UI_TEXT_keys 2) w)).
Proof.
  intros w.
  assert (Hne : forall k, truthy (failure_message UI_TEXT_keys k) = true).
  { intros []; reflexivity. }
  assert (Hdup : NoDup [locationPermissionDenied UI_TEXT_keys;
                        locationUnavailable UI_TEXT_keys;
                        locationTimeout UI_TEXT_keys;
                        locationError UI_TEXT_keys]).
  { apply (bool_decide_unpack _). vm_compute. exact I. }
  destruct (failure_classification UI_TEXT_keys 2 w Hne Hdup)
    as (He & _ & _ & _ & Hother & _).
  split; [exact He|]. apply Hother. discriminate.
Defined.

Lemma reset_before_dispatch_witness :
  let w := world_after UI_TEXT_model UI_TEXT_keys (js "") session_typed in
  error (state w) = Some (js "locationPermissionDenied") /\
  exists (w' : World) (snap : AppState),
    step UI_TEXT_model UI_TEXT_keys SubmitManual w = Some w' /\
    started w' =
      started w ++ [(fetchRestaurantsByQuery (js "Paris") (js "en"), snap)] /\
    restaurants snap = [] /\ error snap = None.
Proof.
  intros w. split; [vm_compute; reflexivity|].
  exists (exec (handleManualSearch (js "Paris") (js "en") UI_TEXT_keys) w).
  assert (Hstep : step UI_TEXT_model UI_TEXT_keys SubmitManual w
    = Some (exec (handleManualSearch (js "Paris") (js "en") UI_TEXT_keys) w)).
  { vm_compute. reflexivity. }
  assert (Hstart : starts_search SubmitManual w = true).
  { vm_compute. reflexivity. }
  destruct (reset_before_dispatch UI_TEXT_model UI_TEXT_keys SubmitManual w
              _ Hstep Hstart)
    as (r & snap & Hs & _ & Hr & He & _ & _ & Hreq).
  exists snap. split; [exact Hstep|]. split.
  - rewrite Hs, (Hreq eq_refl). vm_compute. reflexivity.
  - split; [exact Hr|exact He].
Defined.


Lemma provider_failure_witness :
  let w' := world_after UI_TEXT_model UI_TEXT_keys (js "") session_failed in
  error (state w') = Some (js "fetchError") /\
  restaurants (state w') = [] /\ loading (state w') = false.
Proof.
  intros w'.
  assert (Hrun : run UI_TEXT_model UI_TEXT_keys session_located
                   (mount UI_TEXT_model UI_TEXT_keys (js ""))
    = Some (world_after UI_TEXT_model UI_TEXT_keys (js "") session_located)).
  { vm_compute. reflexivity. }
  assert (Hstep : step UI_TEXT_model UI_TEXT_keys
                    (FetchSettled 0 (Throw outage))
                    (world_after UI_TEXT_model UI_TEXT_keys (js "")
                       session_located)
    = Some w').
  { vm_compute. reflexivity. }
  destruct (provider_failure UI_TEXT_model UI_TEXT_keys (js "")
              session_located _ w' 0%nat outage Hrun Hstep)
    as (p & Hp & He & Hr & Hl & _).
  vm_compute in Hp. injection Hp as <-.
  split; [exact He|]. split; [exact Hr|exact Hl].
Defined.


Lemma empty_answer_is_no_error_witness :
  let w := world_after UI_TEXT_model UI_TEXT_keys (js "") session_typed in
  exists w' : World,
    run UI_TEXT_model UI_TEXT_keys
      [SubmitManual; FetchSettled 0 (Normal [])] w = Some w' /\
    restaurants (state w') = [] /\ error (state w') = None /\
    rendersErrorDisplay (state w') = false.
Proof.
  intros w.
  assert (Hrun : run UI_TEXT_model UI_TEXT_keys session_typed
                   (mount UI_TEXT_model UI_TEXT_keys (js "")) = Some w).
  { vm_compute. reflexivity. }
  assert (Hform : rendersManualForm (state w) = true).
  { vm_compute. reflexivity. }
  assert (Hquery : truthy (trim (manualLocation (state w))) = true).
  { vm_compute. reflexivity. }
  destruct (empty_answer_is_no_error UI_TEXT_model UI_TEXT_keys (js "")
              session_typed w Hrun Hform Hquery)
    as (w' & Hrun' & Hr & He & _ & Hd & _).
  exists w'. split; [exact Hrun'|].
  split; [exact Hr|]. split; [exact He|exact Hd].
Defined.

Lemma welcome_by_current_flags_witness :
  let w := world_after UI_TEXT_model UI_TEXT_keys (js "") session_failed in
  error (state w) = Some (js "fetchError") /\
  exists w' : World,
    run UI_TEXT_model UI_TEXT_keys (empty_search 37.0%float (-122.0)%float) w
      = Some w' /\
    rendersWelcome (state w') = true.
Proof.
  intros w. split; [vm_compute; reflexivity|].
  assert (Hrun : run UI_TEXT_model UI_TEXT_keys session_failed
                   (mount UI_TEXT_model UI_TEXT_keys (js "")) = Some w).
  { vm_compute. reflexivity. }
  assert (Hidle : loading (state w) = false).
  { vm_compute. reflexivity. }
  destruct (welcome_by_current_flags UI_TEXT_model UI_TEXT_keys (js "")
              session_failed w 37.0%float (-122.0)%float Hrun Hidle)
    as (_ & Hagain).
  exact Hagain.
Defined.

(** ** Where the spec's wording and the code part *)



(** Against C9: a search that ended in an error, then one answered with an
    empty list; the welcome placeholder is rendered again. *)
Lemma welcome_counterexample :
  let w1 := world_after UI_TEXT_model UI_TEXT_keys (js "") session_failed in
  let again := session_failed ++ empty_search 37.0%float (-122.0)%float in
  let w := world_after UI_TEXT_model UI_TEXT_keys (js "") again in
  run UI_TEXT_model UI_TEXT_keys session_failed
    (mount UI_TEXT_model UI_TEXT_keys (js "")) = Some w1 /\
  error (state w1) = Some (js "fetchError") /\
  run UI_TEXT_model UI_TEXT_keys again
    (mount UI_TEXT_model UI_TEXT_keys (js "")) = Some w /\
  saw_outcome UI_TEXT_model UI_TEXT_keys again
    (mount UI_TEXT_model UI_TEXT_keys (js "")) = true /\
  loading (state w) = false /\ error (state w) = None /\
  restaurants (state w) = [] /\ showManualInput (state w) = false /\
  rendersWelcome (state w) = true.
Proof. vm_compute. repeat split. Qed.

(** * The rest of the component

    What the view is made of, and how each state cell follows from the
    events of a session. *)

(** ** The view: the JSX tree [App] returns, element by element *)

Record ManualForm := {
  formPrompt : jsstring;
  inputValue : jsstring;
  inputPlaceholder : jsstring;
  inputAriaLabel : jsstring;
  submitDisabled : bool;
  submitLabel : jsstring
}.

Record View := {
  headerTitle : jsstring;
  headerSubtitle : jsstring;
  selectorLanguage : jsstring;
  findDisabled : bool;
  findLabel : jsstring;
  errorDisplay : option jsstring;
  manualForm : option ManualForm;
  loader : option jsstring;
  welcome : option jsstring;
  restaurantList : option (list Restaurant)
}.

Definition render (s : AppState) : View :=
  {| headerTitle := title (uiText s);
     headerSubtitle := subtitle (uiText s);
     selectorLanguage := language s;
     findDisabled := loading s;
     findLabel :=
       if loading s then loadingButton (uiText s) else findButton (uiText s);
     errorDisplay := if rendersErrorDisplay s then error s else None;
     manualForm :=
       if rendersManualForm s then
         Some {| formPrompt := manualLocationPrompt (uiText s);
                 inputValue := manualLocation s;
                 inputPlaceholder := manualLocationPlaceholder (uiText s);
                 inputAriaLabel := manualLocationPlaceholder (uiText s);
                 submitDisabled := loading s;
                 submitLabel := searchButton (uiText s) |}
       else None;
     loader := if rendersLoader s then Some (loaderMessage (uiText s)) else None;
     welcome :=
       if rendersWelcome s then Some (welcomeMessage (uiText s)) else None;
     restaurantList :=
       if rendersRestaurantList s then Some (restaurants s) else None |}.

(** The blocks of the main area that are on screen. *)
Definition blocks (v : View) : list bool :=
  [bool_decide (is_Some (errorDisplay v));
   bool_decide (is_Some (manualForm v));
   bool_decide (is_Some (loader v));
   bool_decide (is_Some (welcome v));
   bool_decide (is_Some (restaurantList v))].

(** ** What one event does to each cell that no handler reads back *)

Definition location_after (ev : Event) (loc : option Coordinates)
    : option Coordinates :=
  match ev with
  | PositionSuccess _ lat lon => Some {| latitude := lat; longitude := lon |}
  | _ => loc
  end.

Definition console_after (ev : Event) (log : list JSError) : list JSError :=
  match ev with
  | FetchSettled _ (Throw e) => log ++ [e]
  | _ => log
  end.

Definition query_after (ev : Event) (q : jsstring) : jsstring :=
  match ev with
  | TypeManual value => value
  | _ => q
  end.

Definition manual_flag_after (ev : Event) (flag : bool) : bool :=
  match ev with
  | ClickFind geolocation => negb geolocation
  | PositionError _ _ => true
  | _ => flag
  end.

Definition language_after (ev : Event) (lang : jsstring) : jsstring :=
  match ev with
  | SelectLanguage code => code
  | _ => lang
  end.

(** A cell over a whole session: the events applied from left to right. *)
Definition over_session {A} (f : Event -> A -> A) (evs : list Event) (a : A)
    : A :=
  fold_left (fun acc ev => f ev acc) evs a.

Section Sessions.

Variable UI_TEXT : gmap jsstring UIText.
Variable UI_TEXT_en : UIText.

Lemma geoErrorCallback_frame (txt : UIText) (code : Z) (w : World) :
  let w' := exec (geoErrorCallback txt code) w in
  userLocation (state w') = userLocation (state w) /\
  manualLocation (state w') = manualLocation (state w) /\
  console w' = console w.
Proof.
  unfold geoErrorCallback, exec.
  destruct (code =? PERMISSION_DENIED); [simpl; auto|].
  destruct (code =? POSITION_UNAVAILABLE); [simpl; auto|].
  destruct (code =? TIMEOUT); simpl; auto.
Qed.

Lemma step_cells (ev : Event) (w w' : World) :
  step UI_TEXT UI_TEXT_en ev w = Some w' ->
  userLocation (state w') = location_after ev (userLocation (state w)) /\
  console w' = console_after ev (console w) /\
  manualLocation (state w') = query_after ev (manualLocation (state w)) /\
  showManualInput (state w')
    = manual_flag_after ev (showManualInput (state w)) /\
  language (state w') = language_after ev (language (state w)).
Proof.
  intros Hstep.
  destruct ev as [code|geo| value| |i lat lon|i code|i settled];
    simpl in Hstep.
  - destruct (decide (code = language (state w))) as [->|Hne];
      [injection Hstep as <-; simpl; auto|].
    destruct (languageEffect UI_TEXT UI_TEXT_en code) as [effect|] eqn:Heff;
      [|discriminate].
    injection Hstep as <-. rewrite (languageEffect_selected _ _ _ _ w Heff).
    simpl; auto.
  - destruct (buttonDisabled (state w)); [discriminate|].
    injection Hstep as <-. destruct geo; simpl; auto.
  - destruct (rendersManualForm (state w)); [|discriminate].
    injection Hstep as <-. simpl; auto.
  - destruct (rendersManualForm (state w)); [|discriminate].
    injection Hstep as <-. unfold exec, handleManualSearch.
    destruct (truthy (trim (manualLocation (state w)))); simpl; auto.
  - unfold take_inflight in Hstep.
    destruct (inflight w !! i) as [p|]; [|discriminate].
    destruct (request p); try discriminate.
    injection Hstep as <-. simpl; auto.
  - unfold take_inflight in Hstep.
    destruct (inflight w !! i) as [p|]; [|discriminate].
    destruct (request p); try discriminate.
    injection Hstep as <-.
    match goal with |- context [exec (geoErrorCallback ?t ?c) ?v] =>
      destruct (geoErrorCallback_spec t c v)
        as (_ & _ & Hflag & _ & _ & Hlang & _);
      destruct (geoErrorCallback_frame t c v) as (Hloc & Hq & Hcon) end.
    rewrite Hloc, Hcon, Hq, Hflag, Hlang. simpl; auto.
  - unfold take_inflight in Hstep.
    destruct (inflight w !! i) as [p|]; [|discriminate].
    destruct (request p); try discriminate;
      injection Hstep as <-; destruct settled; simpl; auto.
Qed.

Lemma run_cells (evs : list Event) (w0 w : World) :
  run UI_TEXT UI_TEXT_en evs w0 = Some w ->
  userLocation (state w)
    = over_session location_after evs (userLocation (state w0)) /\
  console w = over_session console_after evs (console w0) /\
  manualLocation (state w)
    = over_session query_after evs (manualLocation (state w0)) /\
  showManualInput (state w)
    = over_session manual_flag_after evs (showManualInput (state w0)) /\
  language (state w)
    = over_session language_after evs (language (state w0)).
Proof.
  revert w0. induction evs as [|ev evs IH]; intros w0 Hrun; simpl in Hrun.
  - injection Hrun as <-. repeat split.
  - destruct (step UI_TEXT UI_TEXT_en ev w0) as [w1|] eqn:Hstep;
      [|discriminate].
    destruct (step_cells _ _ _ Hstep) as (H1 & H2 & H3 & H4 & H5).
    destruct (IH _ Hrun) as (I1 & I2 & I3 & I4 & I5).
    unfold over_session in *. simpl.
    rewrite <- H1, <- H2, <- H3, <- H4, <- H5. auto.
Qed.

(** ** How the cells follow the session *)

(** X1. From any world, after a session the view accepted, [userLocation]
    is the position of the last successful geolocation callback of the
    session, or what it was before when there was none: no failure, no
    manual search and no language change touches it. *)
Theorem userLocation_is_last_position (evs : list Event) (w0 w : World) :
  run UI_TEXT UI_TEXT_en evs w0 = Some w ->
  userLocation (state w)
    = over_session location_after evs (userLocation (state w0)).
Proof. intros Hrun. apply (run_cells _ _ _ Hrun). Qed.

(** X2. From any world, after a session the view accepted, the console
    holds, after what it held before, exactly the errors of the provider
    calls that failed during the session, one entry each, in the order of
    the failures. *)
Theorem console_is_provider_failures (evs : list Event) (w0 w : World) :
  run UI_TEXT UI_TEXT_en evs w0 = Some w ->
  console w = over_session console_after evs (console w0).
Proof. intros Hrun. apply (run_cells _ _ _ Hrun). Qed.

(** X3. From any world, after a session the view accepted, the manual
    query is the text last typed into the form, or what it was before when
    nothing was typed: no search, successful or not, clears or trims the
    input. *)
Theorem manualLocation_is_last_typed (evs : list Event) (w0 w : World) :
  run UI_TEXT UI_TEXT_en evs w0 = Some w ->
  manualLocation (state w)
    = over_session query_after evs (manualLocation (state w0)).
Proof. intros Hrun. apply (run_cells _ _ _ Hrun). Qed.

(** X4. From any world, after a session the view accepted, the
    manual-entry flag is decided by the last find click or location
    failure of the session: a click with geolocation present turns it
    off, a click without geolocation or a location failure turns it on,
    and nothing else (a manual search, its answer, a provider failure)
    changes it. *)
Theorem showManualInput_by_location_outcome (evs : list Event)
    (w0 w : World) :
  run UI_TEXT UI_TEXT_en evs w0 = Some w ->
  showManualInput (state w)
    = over_session manual_flag_after evs (showManualInput (state w0)).
Proof. intros Hrun. apply (run_cells _ _ _ Hrun). Qed.

(** ** One search at a time *)

(** X5. On every run the number of calls in flight is one while [loading]
    is set and zero otherwise; and while a call is in flight the view
    accepts neither a find click nor typing into or submitting the manual
    form, so a second search cannot start before the first has settled. *)
Theorem one_call_in_flight (dir0 : jsstring) (evs : list Event) (w : World) :
  run UI_TEXT UI_TEXT_en evs (mount UI_TEXT UI_TEXT_en dir0) = Some w ->
  length (inflight w) = (if loading (state w) then 1 else 0)%nat /\
  (inflight w <> [] ->
     (forall geo, step UI_TEXT UI_TEXT_en (ClickFind geo) w = None) /\
     (forall value, step UI_TEXT UI_TEXT_en (TypeManual value) w = None) /\
     step UI_TEXT UI_TEXT_en SubmitManual w = None).
Proof.
  intros Hrun.
  destruct (run_quiescent _ _ _ _ _ (mount_quiescent _ _ dir0) Hrun)
    as [Hbusy Hidle].
  destruct (loading (state w)) eqn:Hl.
  - destruct (Hbusy eq_refl) as (_ & _ & Hlen). split; [exact Hlen|].
    intros _. simpl. unfold buttonDisabled, rendersManualForm.
    rewrite Hl, andb_false_r. auto.
  - rewrite (Hidle eq_refl). split; [reflexivity|]. intros []. reflexivity.
Qed.

(** X6. On every run, while [loading] is set there is one call in flight
    and every way it can settle is accepted and ends the loading: a
    geolocation request by its error callback, with any code, or by its
    success callback followed by the provider's answer or failure; a
    provider call by its answer or failure.  Afterwards no call is in
    flight. *)
Theorem loading_always_ends (dir0 : jsstring) (evs : list Event) (w : World) :
  run UI_TEXT UI_TEXT_en evs (mount UI_TEXT UI_TEXT_en dir0) = Some w ->
  loading (state w) = true ->
  exists p : Pending,
    inflight w = [p] /\
    (request p = getCurrentPosition ->
       (forall code, exists w',
          step UI_TEXT UI_TEXT_en (PositionError 0 code) w = Some w' /\
          loading (state w') = false /\ inflight w' = []) /\
       (forall lat lon settled, exists w',
          run UI_TEXT UI_TEXT_en
            [PositionSuccess 0 lat lon; FetchSettled 0 settled] w = Some w' /\
          loading (state w') = false /\ inflight w' = [])) /\
    (request p <> getCurrentPosition ->
       forall settled, exists w',
         step UI_TEXT UI_TEXT_en (FetchSettled 0 settled) w = Some w' /\
         loading (state w') = false /\ inflight w' = []).
Proof.
  intros Hrun Hl.
  destruct (run_quiescent _ _ _ _ _ (mount_quiescent _ _ dir0) Hrun)
    as [Hbusy _].
  destruct (Hbusy Hl) as (_ & _ & Hlen).
  destruct (inflight w) as [|p [|q l]] eqn:Hin; simpl in Hlen;
    try discriminate.
  exists p. split; [reflexivity|]. split.
  - intros Hreq. split.
    + intros code. eexists. simpl. unfold take_inflight.
      rewrite Hin. simpl. rewrite Hreq. split; [reflexivity|].
      match goal with |- context [exec (geoErrorCallback ?t ?c) ?v] =>
        destruct (geoErrorCallback_spec t c v)
          as (_ & _ & _ & Hl' & _ & _ & _ & _ & Hi & _) end.
      split; [exact Hl'|exact Hi].
    + intros lat lon settled. eexists. simpl. unfold take_inflight.
      rewrite Hin. simpl. rewrite Hreq. simpl.
      split; [reflexivity|]. destruct settled; split; reflexivity.
  - intros Hreq settled. eexists. simpl. unfold take_inflight.
    rewrite Hin. simpl.
    destruct (request p); [contradiction| |];
      (split; [reflexivity|]); destruct settled; split; reflexivity.
Qed.

(** ** Whole searches *)

(** X7. On every run, from a state that is not loading, a find click with
    geolocation present, a position and a provider answer [rs] are
    accepted in this order and end with [restaurants] equal to [rs] (the
    answer replaces whatever was shown), no error, [loading] off, the
    manual-entry flag off and [userLocation] at the position; exactly two
    calls were started, the geolocation request and then the provider call
    for that position in the language of the click. *)
Theorem automatic_search_success (dir0 : jsstring) (evs : list Event)
    (w : World) (lat lon : float) (rs : list Restaurant) :
  run UI_TEXT UI_TEXT_en evs (mount UI_TEXT UI_TEXT_en dir0) = Some w ->
  loading (state w) = false ->
  exists w' : World,
    run UI_TEXT UI_TEXT_en
      [ClickFind true; PositionSuccess 0 lat lon; FetchSettled 0 (Normal rs)]
      w = Some w' /\
    restaurants (state w') = rs /\
    error (state w') = None /\
    loading (state w') = false /\
    showManualInput (state w') = false /\
    userLocation (state w')
      = Some {| latitude := lat; longitude := lon |} /\
    inflight w' = [] /\
    map fst (started w')
      = map fst (started w) ++
        [getCurrentPosition; fetchRestaurants lat lon (language (state w))].
Proof.
  intros Hrun Hl.
  destruct (run_quiescent _ _ _ _ _ (mount_quiescent _ _ dir0) Hrun)
    as [_ Hidle].
  eexists. split.
  - unfold run, step, buttonDisabled. rewrite Hl.
    unfold exec, handleFindRestaurants, take_inflight. simpl.
    rewrite (Hidle Hl). simpl. reflexivity.
  - simpl. rewrite !map_app, <- app_assoc. repeat split.
Qed.

(** X8. On every run, from a state where the manual form is shown with a
    query whose trim is not empty, a submit and a provider answer [rs] are
    accepted and end with [restaurants] equal to [rs], no error and
    [loading] off; the form is still rendered, with the query still in
    it, and [userLocation] is untouched.  The one call started is the
    provider call for the query as typed, in the current language. *)
Theorem manual_search_success (dir0 : jsstring) (evs : list Event)
    (w : World) (rs : list Restaurant) :
  run UI_TEXT UI_TEXT_en evs (mount UI_TEXT UI_TEXT_en dir0) = Some w ->
  rendersManualForm (state w) = true ->
  truthy (trim (manualLocation (state w))) = true ->
  exists w' : World,
    run UI_TEXT UI_TEXT_en [SubmitManual; FetchSettled 0 (Normal rs)] w
      = Some w' /\
    restaurants (state w') = rs /\
    error (state w') = None /\
    loading (state w') = false /\
    rendersManualForm (state w') = true /\
    manualLocation (state w') = manualLocation (state w) /\
    userLocation (state w') = userLocation (state w) /\
    inflight w' = [] /\
    map fst (started w')
      = map fst (started w) ++
        [fetchRestaurantsByQuery (manualLocation (state w))
           (language (state w))].
Proof.
  intros Hrun Hform Hq.
  destruct (run_quiescent _ _ _ _ _ (mount_quiescent _ _ dir0) Hrun)
    as [_ Hidle].
  pose proof Hform as Hform'. unfold rendersManualForm in Hform'.
  apply andb_true_iff in Hform' as [Hshow Hl].
  apply negb_true_iff in Hl.
  eexists. split.
  - unfold run, step. rewrite Hform.
    unfold exec, handleManualSearch. rewrite Hq. simpl.
    unfold take_inflight. simpl. rewrite (Hidle Hl). simpl. reflexivity.
  - simpl. unfold rendersManualForm. simpl. rewrite Hshow, !map_app.
    repeat split.
Qed.

Lemma step_select (code : jsstring) (w : World) :
  localized UI_TEXT UI_TEXT_en w ->
  inherits UI_TEXT code = false ->
  step UI_TEXT UI_TEXT_en (SelectLanguage code) w
  = Some (selected UI_TEXT UI_TEXT_en code w).
Proof.
  intros [Htxt Hdir] Hin.
  destruct (resolve_entry UI_TEXT UI_TEXT_en code Hin) as [t Ht].
  simpl. destruct (decide (code = language (state w))) as [Heq|Hne].
  - f_equal. unfold selected, text_after. rewrite Ht.
    rewrite <- (Htxt t); [|rewrite <- Heq; exact Ht].
    rewrite Heq at 1 2. rewrite <- Hdir.
    destruct w as [[lang rs ld err loc txt q flag] d con fl st].
    reflexivity.
  - destruct (languageEffect UI_TEXT UI_TEXT_en code) as [effect|] eqn:Heff.
    + rewrite (languageEffect_selected _ _ _ _ w Heff). reflexivity.
    + unfold languageEffect in Heff. rewrite Ht in Heff. discriminate.
Qed.

(** X9. On every run, from a state that is not loading: when the language
    is changed between the find click and the position, to a code whose
    table read does not end at a member of [Object.prototype], the
    provider is still asked in the language of the click, and a provider
    failure is reported with the [fetchError] of the text of the click,
    while the state has moved on to the new language and its text. *)
Theorem language_change_during_search (dir0 : jsstring) (evs : list Event)
    (w : World) (code : jsstring) (lat lon : float) (e : JSError) :
  run UI_TEXT UI_TEXT_en evs (mount UI_TEXT UI_TEXT_en dir0) = Some w ->
  loading (state w) = false ->
  inherits UI_TEXT code = false ->
  exists w1 w2 : World,
    run UI_TEXT UI_TEXT_en
      [ClickFind true; SelectLanguage code; PositionSuccess 0 lat lon] w
      = Some w1 /\
    language (state w1) = code /\
    resolve UI_TEXT UI_TEXT_en code = Entry (uiText (state w1)) /\
    inflight w1
      = [{| request := fetchRestaurants lat lon (language (state w));
            closed_language := language (state w);
            closed_uiText := uiText (state w) |}] /\
    step UI_TEXT UI_TEXT_en (FetchSettled 0 (Throw e)) w1 = Some w2 /\
    error (state w2) = Some (fetchError (uiText (state w))) /\
    resolve UI_TEXT UI_TEXT_en code = Entry (uiText (state w2)).
Proof.
  intros Hrun Hl Hin.
  destruct (run_quiescent _ _ _ _ _ (mount_quiescent _ _ dir0) Hrun)
    as [_ Hidle].
  pose proof (run_localized _ _ _ _ _ (mount_localized _ _ dir0) Hrun)
    as Hloc.
  destruct (resolve_entry UI_TEXT UI_TEXT_en code Hin) as [t Ht].
  set (clicked :=
    exec (handleFindRestaurants (language (state w)) (uiText (state w)) true)
      w).
  assert (Hclick : step UI_TEXT UI_TEXT_en (ClickFind true) w = Some clicked).
  { simpl. unfold buttonDisabled. rewrite Hl. reflexivity. }
  assert (Hselect :
    step UI_TEXT UI_TEXT_en (SelectLanguage code) clicked
    = Some (selected UI_TEXT UI_TEXT_en code clicked)).
  { apply step_select; [|exact Hin].
    apply (step_localized _ _ _ _ _ Hloc Hclick). }
  eexists _, _. split.
  { unfold run. rewrite Hclick, Hselect. simpl.
    unfold take_inflight. simpl. rewrite (Hidle Hl). simpl. reflexivity. }
  simpl. unfold text_after. rewrite Ht. repeat split.
Qed.

(** ** Language selection and typing *)

(** X10. On every run, for two codes whose table reads do not end at a
    member of [Object.prototype], selecting the first and then the second
    has the effect of selecting the second alone: the state, the document
    direction and everything else end up the same, also when the second
    is the language the run was in, or when both are the same.  What is
    left is the selected code, its resolved text and its direction, with
    every other cell as before. *)
Theorem language_selection_composes (dir0 : jsstring) (evs : list Event)
    (w : World) (a b : jsstring) :
  run UI_TEXT UI_TEXT_en evs (mount UI_TEXT UI_TEXT_en dir0) = Some w ->
  inherits UI_TEXT a = false ->
  inherits UI_TEXT b = false ->
  run UI_TEXT UI_TEXT_en [SelectLanguage a; SelectLanguage b] w
    = step UI_TEXT UI_TEXT_en (SelectLanguage b) w /\
  step UI_TEXT UI_TEXT_en (SelectLanguage b) w
    = Some (selected UI_TEXT UI_TEXT_en b w) /\
  resolve UI_TEXT UI_TEXT_en b
    = Entry (uiText (state (selected UI_TEXT UI_TEXT_en b w))).
Proof.
  intros Hrun Ha Hb.
  pose proof (run_localized _ _ _ _ _ (mount_localized _ _ dir0) Hrun)
    as Hloc.
  destruct (resolve_entry UI_TEXT UI_TEXT_en b Hb) as [t Ht].
  assert (Hsel : step UI_TEXT UI_TEXT_en (SelectLanguage a) w
                 = Some (selected UI_TEXT UI_TEXT_en a w))
    by (apply step_select; assumption).
  split; [|split; [apply step_select; assumption|]].
  - unfold run. rewrite Hsel.
    rewrite (step_select b w Hloc Hb).
    rewrite (step_select b (selected UI_TEXT UI_TEXT_en a w));
      [|apply (step_localized _ _ _ _ _ Hloc Hsel)|exact Hb].
    unfold selected, text_after. simpl. rewrite Ht. reflexivity.
  - simpl. unfold text_after. rewrite Ht. reflexivity.
Qed.

(** Selecting a language or typing into the form. *)
Definition passive (ev : Event) : bool :=
  match ev with
  | SelectLanguage _ | TypeManual _ => true
  | _ => false
  end.

(** X11. An accepted language selection or typing into the manual form
    changes nothing of a search: results, error message, [loading], the
    manual-entry flag, [userLocation], the console, the calls in flight
    and the log are after the event what they were before it.  In
    particular an error message is neither cleared nor put into the new
    language by them. *)
Theorem passive_events_frame (ev : Event) (w w' : World) :
  step UI_TEXT UI_TEXT_en ev w = Some w' ->
  passive ev = true ->
  restaurants (state w') = restaurants (state w) /\
  error (state w') = error (state w) /\
  loading (state w') = loading (state w) /\
  showManualInput (state w') = showManualInput (state w) /\
  userLocation (state w') = userLocation (state w) /\
  console w' = console w /\
  inflight w' = inflight w /\
  started w' = started w.
Proof.
  intros Hstep Hpassive.
  destruct ev as [code|geo| value| |i lat lon|i code|i settled];
    try discriminate; simpl in Hstep.
  - destruct (decide (code = language (state w)));
      [injection Hstep as <-; repeat split|].
    destruct (languageEffect UI_TEXT UI_TEXT_en code) as [effect|] eqn:Heff;
      [|discriminate].
    injection Hstep as <-. rewrite (languageEffect_selected _ _ _ _ w Heff).
    repeat split.
  - destruct (rendersManualForm (state w)); [|discriminate].
    injection Hstep as <-. repeat split.
Qed.

(** ** The blank-query guard *)

Lemma trimStart_nil (s : jsstring) :
  trimStart s = [] <-> forallb isWhiteSpace s = true.
Proof.
  induction s as [|c s IH]; simpl; [tauto|].
  destruct (isWhiteSpace c); simpl; [exact IH|].
  split; discriminate.
Qed.

Lemma trimStart_head (s t : jsstring) (c : N) :
  trimStart s = c :: t -> isWhiteSpace c = false.
Proof.
  induction s as [|d s IH]; simpl; [discriminate|].
  destruct (isWhiteSpace d) eqn:Hd; [exact IH|].
  intros Heq. injection Heq as <- _. exact Hd.
Qed.

Lemma trim_nil (s : jsstring) :
  trim s = [] <-> forallb isWhiteSpace s = true.
Proof.
  unfold trim, trimEnd. split.
  - intros Hnil. apply trimStart_nil.
    assert (Hrev : trimStart (rev (trimStart s)) = []).
    { destruct (trimStart (rev (trimStart s))) as [|c t]; [reflexivity|].
      simpl in Hnil. destruct (rev t); discriminate. }
    apply trimStart_nil in Hrev.
    destruct (trimStart s) as [|c t] eqn:Hs; [reflexivity|].
    apply trimStart_head in Hs.
    rewrite forallb_forall in Hrev.
    rewrite (Hrev c) in Hs; [discriminate|].
    apply in_rev. rewrite rev_involutive. left. reflexivity.
  - intros Hall. apply trimStart_nil in Hall. rewrite Hall. reflexivity.
Qed.

(** X12. The submit handler turns a query away exactly when every code
    unit of it is white space (the empty query included): then it only
    sets the error.  In every other case it starts one provider call, for
    the query as typed, surrounding white space included, with [error]
    cleared and [loading] set. *)
Theorem blank_guard_is_all_white_space (manualLoc lang : jsstring)
    (txt : UIText) (w : World) :
  let w' := exec (handleManualSearch manualLoc lang txt) w in
  if forallb isWhiteSpace manualLoc then
    inflight w' = inflight w /\
    error (state w') = Some (manualLocationError txt)
  else
    inflight w' = inflight w ++
      [{| request := fetchRestaurantsByQuery manualLoc lang;
          closed_language := lang; closed_uiText := txt |}] /\
    error (state w') = None /\
    loading (state w') = true.
Proof.
  unfold exec, handleManualSearch.
  destruct (forallb isWhiteSpace manualLoc) eqn:Hall.
  - apply trim_nil in Hall. rewrite Hall. simpl. split; reflexivity.
  - destruct (trim manualLoc) as [|c t] eqn:Htrim.
    + apply trim_nil in Htrim. congruence.
    + simpl. repeat split.
Qed.

(** ** The view *)

(** X13. Whatever the state, the main area is never blank: at least one of
    the error display, the manual form, the loader, the welcome
    placeholder and the list of restaurants is rendered.  The welcome
    placeholder is only ever rendered alone; and a rendered manual form
    has its submit button enabled, since the form is left out while
    [loading] is set. *)
Theorem view_never_blank (s : AppState) :
  In true (blocks (render s)) /\
  (welcome (render s) <> None ->
     blocks (render s) = [false; false; false; true; false]) /\
  (forall form, manualForm (render s) = Some form ->
     submitDisabled form = false /\ loader (render s) = None).
Proof.
  unfold render, blocks, rendersErrorDisplay, rendersManualForm,
    rendersLoader, rendersWelcome, rendersRestaurantList, truthy_opt.
  destruct s as [lang rs ld err loc txt q flag]. simpl.
  destruct ld, flag, rs as [|r rs], err as [[|c m]|]; simpl;
    (split; [tauto|]); (split; [try congruence; reflexivity|]);
    intros form Hform; try discriminate;
    injection Hform as <-; split; reflexivity.
Qed.

(** X14. On every run, while [loading] is set the loader is the only block
    of the main area on screen (no error, no form, no welcome, no list),
    and the find button is disabled and carries the loading label. *)
Theorem loader_is_rendered_alone (dir0 : jsstring) (evs : list Event)
    (w : World) :
  run UI_TEXT UI_TEXT_en evs (mount UI_TEXT UI_TEXT_en dir0) = Some w ->
  loading (state w) = true ->
  blocks (render (state w)) = [false; false; true; false; false] /\
  loader (render (state w)) = Some (loaderMessage (uiText (state w))) /\
  findDisabled (render (state w)) = true /\
  findLabel (render (state w)) = loadingButton (uiText (state w)).
Proof.
  intros Hrun Hl.
  destruct (run_quiescent _ _ _ _ _ (mount_quiescent _ _ dir0) Hrun)
    as [Hbusy _].
  destruct (Hbusy Hl) as (He & Hr & _).
  unfold render, blocks, rendersErrorDisplay, rendersManualForm,
    rendersLoader, rendersWelcome, rendersRestaurantList. simpl.
  rewrite Hl, He, Hr, andb_false_r. simpl. repeat split.
Qed.

(** X15. On every run, from a state that is not loading, a find click
    with geolocation present followed by a location failure of any code is
    accepted and ends with the message of the code's kind, taken from the
    text of the click, as the error; no results, [loading] off, no call in
    flight, [userLocation] untouched, and the manual form rendered with
    the query typed earlier still in its input. *)
Theorem location_failure_offers_manual_form (dir0 : jsstring)
    (evs : list Event) (w : World) (code : Z) :
  run UI_TEXT UI_TEXT_en evs (mount UI_TEXT UI_TEXT_en dir0) = Some w ->
  loading (state w) = false ->
  exists w' : World,
    run UI_TEXT UI_TEXT_en [ClickFind true; PositionError 0 code] w
      = Some w' /\
    error (state w')
      = Some (failure_message (uiText (state w)) (classify code)) /\
    restaurants (state w') = [] /\
    loading (state w') = false /\
    inflight w' = [] /\
    userLocation (state w') = userLocation (state w) /\
    exists form : ManualForm,
      manualForm (render (state w')) = Some form /\
      inputValue form = manualLocation (state w).
Proof.
  intros Hrun Hl.
  destruct (run_quiescent _ _ _ _ _ (mount_quiescent _ _ dir0) Hrun)
    as [_ Hidle].
  eexists. split.
  - unfold run, step, buttonDisabled. rewrite Hl.
    unfold take_inflight. unfold exec at 2. unfold handleFindRestaurants.
    simpl. rewrite (Hidle Hl). simpl. reflexivity.
  - match goal with |- context [exec (geoErrorCallback ?t ?c) ?v] =>
      destruct (geoErrorCallback_spec t c v)
        as (_ & He & Hflag & Hl' & Hr & _ & Htxt & _ & Hi & _);
      destruct (geoErrorCallback_frame t c v) as (Hloc & Hq & _) end.
    simpl in *.
    split; [exact He|]. split; [exact Hr|]. split; [exact Hl'|].
    split; [exact Hi|]. split; [exact Hloc|].
    unfold render, rendersManualForm. rewrite Hflag, Hl'. simpl.
    eexists. split; [reflexivity|]. simpl. exact Hq.
Qed.

End Sessions.

(** ** These theorems at work on the sample sessions *)

Lemma userLocation_is_last_position_witness :
  userLocation
    (state (world_after UI_TEXT_model UI_TEXT_keys (js "") session_failed))
  = Some {| latitude := 37.0; longitude := -122.0 |}.
Proof.
  assert (Hrun : run UI_TEXT_model UI_TEXT_keys session_failed
                   (mount UI_TEXT_model UI_TEXT_keys (js ""))
    = Some (world_after UI_TEXT_model UI_TEXT_keys (js "") session_failed)).
  { vm_compute. reflexivity. }
  etransitivity.
  - exact (userLocation_is_last_position UI_TEXT_model UI_TEXT_keys
             session_failed _ _ Hrun).
  - vm_compute. reflexivity.
Defined.

Lemma console_is_provider_failures_witness :
  console (world_after UI_TEXT_model UI_TEXT_keys (js "")
             (session_failed ++ session_failed))
  = [outage; outage].
Proof.
  assert (Hrun : run UI_TEXT_model UI_TEXT_keys
                   (session_failed ++ session_failed)
                   (mount UI_TEXT_model UI_TEXT_keys (js ""))
    = Some (world_after UI_TEXT_model UI_TEXT_keys (js "")
              (session_failed ++ session_failed))).
  { vm_compute. reflexivity. }
  etransitivity.
  - exact (console_is_provider_failures UI_TEXT_model UI_TEXT_keys
             (session_failed ++ session_failed) _ _ Hrun).
  - vm_compute. reflexivity.
Defined.

Lemma manualLocation_is_last_typed_witness :
  manualLocation
    (state (world_after UI_TEXT_model UI_TEXT_keys (js "") session_results))
  = js "Paris".
Proof.
  assert (Hrun : run UI_TEXT_model UI_TEXT_keys session_results
                   (mount UI_TEXT_model UI_TEXT_keys (js ""))
    = Some (world_after UI_TEXT_model UI_TEXT_keys (js "") session_results)).
  { vm_compute. reflexivity. }
  etransitivity.
  - exact (manualLocation_is_last_typed UI_TEXT_model UI_TEXT_keys
             session_results _ _ Hrun).
  - vm_compute. reflexivity.
Defined.

Lemma showManualInput_by_location_outcome_witness :
  showManualInput
    (state (world_after UI_TEXT_model UI_TEXT_keys (js "") session_results))
  = true.
Proof.
  assert (Hrun : run UI_TEXT_model UI_TEXT_keys session_results
                   (mount UI_TEXT_model UI_TEXT_keys (js ""))
    = Some (world_after UI_TEXT_model UI_TEXT_keys (js "") session_results)).
  { vm_compute. reflexivity. }
  etransitivity.
  - exact (showManualInput_by_location_outcome UI_TEXT_model UI_TEXT_keys
             session_results _ _ Hrun).
  - vm_compute. reflexivity.
Defined.

Lemma one_call_in_flight_witness :
  let w := world_after UI_TEXT_model UI_TEXT_keys (js "") session_located in
  length (inflight w) = 1%nat /\
  step UI_TEXT_model UI_TEXT_keys (ClickFind true) w = None.
Proof.
  intros w.
  assert (Hrun : run UI_TEXT_model UI_TEXT_keys session_located
                   (mount UI_TEXT_model UI_TEXT_keys (js "")) = Some w).
  { vm_compute. reflexivity. }
  destruct (one_call_in_flight UI_TEXT_model UI_TEXT_keys (js "")
              session_located w Hrun) as (Hlen & Hgate).
  split; [exact Hlen|].
  assert (Hbusy : inflight w <> []).
  { vm_compute. discriminate. }
  destruct (Hgate Hbusy) as (Hfind & _). exact (Hfind true).
Defined.

Lemma loading_always_ends_witness :
  let w := world_after UI_TEXT_model UI_TEXT_keys (js "") [ClickFind true] in
  exists w' : World,
    run UI_TEXT_model UI_TEXT_keys
      [PositionSuccess 0 37.0%float (-122.0)%float;
       FetchSettled 0 (Throw outage)] w = Some w' /\
    loading (state w') = false /\ inflight w' = [].
Proof.
  intros w.
  assert (Hrun : run UI_TEXT_model UI_TEXT_keys [ClickFind true]
                   (mount UI_TEXT_model UI_TEXT_keys (js "")) = Some w).
  { vm_compute. reflexivity. }
  assert (Hl : loading (state w) = true).
  { vm_compute. reflexivity. }
  destruct (loading_always_ends UI_TEXT_model UI_TEXT_keys (js "")
              [ClickFind true] w Hrun Hl) as (p & Hp & Hgeo & _).
  vm_compute in Hp. injection Hp as <-.
  destruct (Hgeo eq_refl) as (_ & Hok).
  exact (Hok 37.0%float (-122.0)%float (Throw outage)).
Defined.

Lemma automatic_search_success_witness :
  let w := world_after UI_TEXT_model UI_TEXT_keys (js "") session_failed in
  exists w' : World,
    run UI_TEXT_model UI_TEXT_keys
      [ClickFind true; PositionSuccess 0 48.0%float 2.0%float;
       FetchSettled 0 (Normal [bistro])] w = Some w' /\
    restaurants (state w') = [bistro] /\ error (state w') = None /\
    userLocation (state w')
      = Some {| latitude := 48.0; longitude := 2.0 |}.
Proof.
  intros w.
  assert (Hrun : run UI_TEXT_model UI_TEXT_keys session_failed
                   (mount UI_TEXT_model UI_TEXT_keys (js "")) = Some w).
  { vm_compute. reflexivity. }
  assert (Hl : loading (state w) = false).
  { vm_compute. reflexivity. }
  destruct (automatic_search_success UI_TEXT_model UI_TEXT_keys (js "")
              session_failed w 48.0%float 2.0%float [bistro] Hrun Hl)
    as (w' & Hrun' & Hr & He & _ & _ & Hloc & _).
  exists w'. split; [exact Hrun'|].
  split; [exact Hr|]. split; [exact He|exact Hloc].
Defined.

Lemma manual_search_success_witness :
  let w := world_after UI_TEXT_model UI_TEXT_keys (js "") session_typed in
  exists w' : World,
    run UI_TEXT_model UI_TEXT_keys
      [SubmitManual; FetchSettled 0 (Normal [bistro; bistro])] w = Some w' /\
    restaurants (state w') = [bistro; bistro] /\
    error (state w') = None /\
    rendersManualForm (state w') = true.
Proof.
  intros w.
  assert (Hrun : run UI_TEXT_model UI_TEXT_keys session_typed
                   (mount UI_TEXT_model UI_TEXT_keys (js "")) = Some w).
  { vm_compute. reflexivity. }
  assert (Hform : rendersManualForm (state w) = true).
  { vm_compute. reflexivity. }
  assert (Hquery : truthy (trim (manualLocation (state w))) = true).
  { vm_compute. reflexivity. }
  destruct (manual_search_success UI_TEXT_model UI_TEXT_keys (js "")
              session_typed w [bistro; bistro] Hrun Hform Hquery)
    as (w' & Hrun' & Hr & He & _ & Hstill & _).
  exists w'. split; [exact Hrun'|].
  split; [exact Hr|]. split; [exact He|exact Hstill].
Defined.

Lemma language_change_during_search_witness :
  let w := mount UI_TEXT_model UI_TEXT_keys (js "") in
  exists w1 : World,
    run UI_TEXT_model UI_TEXT_keys
      [ClickFind true; SelectLanguage (js "ar");
       PositionSuccess 0 37.0%float (-122.0)%float] w = Some w1 /\
    language (state w1) = js "ar" /\
    map request (inflight w1)
      = [fetchRestaurants 37.0%float (-122.0)%float (js "en")].
Proof.
  intros w.
  assert (Hrun : run UI_TEXT_model UI_TEXT_keys []
                   (mount UI_TEXT_model UI_TEXT_keys (js "")) = Some w).
  { reflexivity. }
  assert (Hl : loading (state w) = false).
  { vm_compute. reflexivity. }
  assert (Hin : inherits UI_TEXT_model (js "ar") = false).
  { vm_compute. reflexivity. }
  destruct (language_change_during_search UI_TEXT_model UI_TEXT_keys (js "")
              [] w (js "ar") 37.0%float (-122.0)%float outage Hrun Hl Hin)
    as (w1 & w2 & Hrun1 & Hlang & _ & Hcall & _).
  exists w1. split; [exact Hrun1|]. split; [exact Hlang|].
  rewrite Hcall. vm_compute. reflexivity.
Defined.

Lemma language_selection_composes_witness :
  let w := world_after UI_TEXT_model UI_TEXT_keys (js "") session_results in
  run UI_TEXT_model UI_TEXT_keys
    [SelectLanguage (js "ar"); SelectLanguage (js "en")] w = Some w.
Proof.
  intros w.
  assert (Hrun : run UI_TEXT_model UI_TEXT_keys session_results
                   (mount UI_TEXT_model UI_TEXT_keys (js "")) = Some w).
  { vm_compute. reflexivity. }
  assert (Har : inherits UI_TEXT_model (js "ar") = false).
  { vm_compute. reflexivity. }
  assert (Hen : inherits UI_TEXT_model (js "en") = false).
  { vm_compute. reflexivity. }
  destruct (language_selection_composes UI_TEXT_model UI_TEXT_keys (js "")
              session_results w (js "ar") (js "en") Hrun Har Hen)
    as (Hcomp & _).
  etransitivity; [exact Hcomp|]. vm_compute. reflexivity.
Defined.

Lemma passive_events_frame_witness :
  let w := world_after UI_TEXT_model UI_TEXT_keys (js "")
             session_blank_after_results in
  let w' := world_after UI_TEXT_model UI_TEXT_keys (js "")
              (session_blank_after_results ++ [SelectLanguage (js "ar")]) in
  error (state w') = Some (js "manualLocationError") /\
  restaurants (state w') = [bistro].
Proof.
  intros w w'.
  assert (Hstep : step UI_TEXT_model UI_TEXT_keys (SelectLanguage (js "ar")) w
                  = Some w').
  { vm_compute. reflexivity. }
  destruct (passive_events_frame UI_TEXT_model UI_TEXT_keys
              (SelectLanguage (js "ar")) w w' Hstep eq_refl)
    as (Hr & He & _).
  split.
  - etransitivity; [exact He|]. vm_compute. reflexivity.
  - etransitivity; [exact Hr|]. vm_compute. reflexivity.
Defined.

Lemma loader_is_rendered_alone_witness :
  let w := world_after UI_TEXT_model UI_TEXT_keys (js "") session_located in
  blocks (render (state w)) = [false; false; true; false; false] /\
  findLabel (render (state w)) = js "loadingButton".
Proof.
  intros w.
  assert (Hrun : run UI_TEXT_model UI_TEXT_keys session_located
                   (mount UI_TEXT_model UI_TEXT_keys (js "")) = Some w).
  { vm_compute. reflexivity. }
  assert (Hl : loading (state w) = true).
  { vm_compute. reflexivity. }
  destruct (loader_is_rendered_alone UI_TEXT_model UI_TEXT_keys (js "")
              session_located w Hrun Hl) as (Hb & _ & _ & Hlabel).
  split; [exact Hb|].
  etransitivity; [exact Hlabel|]. vm_compute. reflexivity.
Defined.

Lemma location_failure_offers_manual_form_witness :
  let w := world_after UI_TEXT_model UI_TEXT_keys (js "") session_results in
  exists w' : World,
    run UI_TEXT_model UI_TEXT_keys [ClickFind true; PositionError 0 3] w
      = Some w' /\
    error (state w') = Some (js "locationTimeout") /\
    restaurants (state w') = [] /\
    exists form : ManualForm,
      manualForm (render (state w')) = Some form /\
      inputValue form = js "Paris".
Proof.
  intros w.
  assert (Hrun : run UI_TEXT_model UI_TEXT_keys session_results
                   (mount UI_TEXT_model UI_TEXT_keys (js "")) = Some w).
  { vm_compute. reflexivity. }
  assert (Hl : loading (state w) = false).
  { vm_compute. reflexivity. }
  destruct (location_failure_offers_manual_form UI_TEXT_model UI_TEXT_keys
              (js "") session_results w 3 Hrun Hl)
    as (w' & Hrun' & He & Hr & _ & _ & _ & form & Hform & Hvalue).
  exists w'. split; [exact Hrun'|]. split.
  - etransitivity; [exact He|]. vm_compute. reflexivity.
  - split; [exact Hr|]. exists form. split; [exact Hform|].
    etransitivity; [exact Hvalue|]. vm_compute. reflexivity.
Defined.
